(** * Retry executor and run-polling loop of [core/api_client.py]

    A shallow embedding of [APIClient._make_api_request_async] (the
    request executor) and [APIClient._check_run_status] (the run-polling
    loop), and the properties the specification states about them.

    The two coroutines talk to the outside only through four primitives:
    one remote call awaited under a deadline, [asyncio.sleep], the event
    loop's clock and the shared flag [_run_status_check].  They are kept
    abstract in a [Runtime]; the coroutines themselves are written in a
    small monad that threads the runtime's world, may raise a Python
    exception and records what was done in a trace. Durations in seconds
    are rationals: the source computes them on floats, and every value
    the defaults produce (30.0, 60.0, ...) is computed exactly. *)

From Stdlib Require Import ZArith QArith List String Bool Lia.
Import ListNotations.
Local Open Scope string_scope.
Local Open Scope list_scope.
Local Open Scope Z_scope.

(** ** Data *)

(** The run object the assistants API returns; only the three attributes
    the polling loop reads. [status] stays a string, as in the source. *)
Module Run.
Record t : Type := make
  { id : string; assistant_id : string; status : string }.
End Run.

(** What an awaited call evaluates to: a run object, or [None]. *)
Inductive pyval : Type :=
| PyNone
| PyRun (r : Run.t).

(** Text of the exceptions the two coroutines build themselves, with the
    interpolated fields kept as fields. *)
Inductive message : Type :=
| MsgRequestFailedAfter (attempts : Z)
    (* f"API request failed after {max_retries} attempts" *)
| MsgRunFailedAfter (attempts : Z)
    (* f"Run failed after {max_run_retries} attempts" *)
| MsgRunTimedOutAfter (seconds : Q) (retries : Z)
    (* f"Run timed out after {run_timeout} seconds and {max_run_retries} retries" *)
| MsgText (s : string).

(** Instances of [Exception]. [AsyncioTimeoutError] is what
    [asyncio.wait_for] raises at its deadline, [TimeoutError] the builtin
    class, [RemoteError] any other error class of the remote operation or
    of the callback. Signals that are not instances of [Exception] (task
    cancellation, interpreter exit) are not errors of an operation and
    stay outside the model. *)
Inductive exn : Type :=
| AsyncioTimeoutError
| TimeoutError (m : message)
| AttributeError (attr : string)
| Exception (m : message)
| RemoteError (kind : string) (detail : string).

(** The function and arguments of the three calls the polling loop makes. *)
Inductive request : Type :=
| RunsRetrieve (thread_id run_id : string)
| RunsCreate (thread_id assistant_id : string)
| RunsCancel (thread_id run_id : string).

(** Outcome of one awaited attempt. *)
Inductive attempt : Type :=
| Returned (v : pyval)
| Failed (e : exn).

Inductive level : Type := Debug | Info | Warning | Error.

Inductive log_record : Type :=
| LogAttempt (number total : Z) (timeout : Q)
| LogRequestTimedOut (timeout : Q) (number total : Z)
| LogAllTimedOut
| LogRequestFailed (e : exn) (number total : Z)
| LogAllFailed (e : exn)
| LogRunFailed (status : string)
| LogRetryingRun (number total : Z)
| LogRunTimedOutRetrying (number total : Z)
| LogErrorChecking (e : exn)
| LogFinalError (e : exn).

(** The two places that call [asyncio.sleep]: line 118/126 and line 82. *)
Inductive sleep_site : Type := Backoff | PollInterval.

Inductive event : Type :=
| EvRequest (req : request) (timeout : Q) (out : attempt)
| EvSleep (site : sleep_site) (seconds : Z)
| EvCallback (arg : pyval) (raised : option exn)
| EvLog (lvl : level) (rec : log_record).

Definition trace : Type := list event.

(** The attributes [__init__] sets and the coroutines read. *)
Record APIClient : Type := mkAPIClient
  { max_retries : Z;
    base_timeout : Q;
    max_run_retries : Z;
    run_timeout : Q }.

Definition APIClient_init : APIClient :=
  {| max_retries := 2; base_timeout := 30; max_run_retries := 2; run_timeout := 30 |}.

(** The surroundings of the coroutines. [World] is everything outside
    them: the remote service, the clock, the other tasks (one of which
    may call [cleanup]). It moves whenever the coroutine awaits. *)
Record Runtime : Type := mkRuntime
  { World : Type;
    (* Python >= 3.11: asyncio.TimeoutError is the builtin TimeoutError *)
    timeout_alias : bool;
    (* asyncio.wait_for(loop.run_in_executor(pool, call), timeout) *)
    wait_for : request -> Q -> World -> attempt * World;
    (* asyncio.sleep(seconds) *)
    sleep : Z -> World -> World;
    (* asyncio.get_event_loop().time() *)
    time : World -> Q;
    (* self._run_status_check *)
    run_status_check : World -> bool }.

Inductive result (A : Type) : Type :=
| Ok (a : A)
| Raise (e : exn).
Arguments Ok {A} a.
Arguments Raise {A} e.

(** [x in [...]] on strings. *)
Definition py_in (x : string) (l : list string) : bool :=
  existsb (String.eqb x) l.

(** [a > b] on seconds. *)
Definition Qgtb (a b : Q) : bool :=
  match (a ?= b)%Q with Gt => true | _ => false end.

(** ** The coroutines *)

Section Coroutines.

Variable rt : Runtime.
Variable self : APIClient.

Definition M (A : Type) : Type := World rt -> result A * World rt * trace.

Definition ret {A} (a : A) : M A := fun w => (Ok a, w, []).

Definition raise {A} (e : exn) : M A := fun w => (Raise e, w, []).

Definition bind {A B} (m : M A) (k : A -> M B) : M B :=
  fun w =>
    match m w with
    | (Ok a, w1, t1) => let '(r, w2, t2) := k a w1 in (r, w2, t1 ++ t2)
    | (Raise e, w1, t1) => (Raise e, w1, t1)
    end.

(** [try: m  except <any> as e: h e] *)
Definition try_except {A} (m : M A) (h : exn -> M A) : M A :=
  fun w =>
    match m w with
    | (Ok a, w1, t1) => (Ok a, w1, t1)
    | (Raise e, w1, t1) => let '(r, w2, t2) := h e w1 in (r, w2, t1 ++ t2)
    end.

Notation "x <- m ;; k" := (bind m (fun x => k))
  (at level 61, m at next level, right associativity).
Notation "m ;; k" := (bind m (fun _ => k))
  (at level 61, right associativity).

Definition log (lvl : level) (rec : log_record) : M unit :=
  fun w => (Ok tt, w, [EvLog lvl rec]).

Definition asyncio_sleep (site : sleep_site) (seconds : Z) : M unit :=
  fun w => (Ok tt, sleep rt seconds w, [EvSleep site seconds]).

Definition loop_time : M Q := fun w => (Ok (time rt w), w, []).

(** One attempt through the worker pool, awaited up to [timeout]. *)
Definition run_with_deadline (req : request) (timeout : Q) : M pyval :=
  fun w =>
    let (out, w1) := wait_for rt req timeout w in
    (match out with Returned v => Ok v | Failed e => Raise e end,
     w1, [EvRequest req timeout out]).

(** [isinstance(e, asyncio.TimeoutError)], the first [except] clause of
    the executor. *)
Definition isinstance_asyncio_TimeoutError (e : exn) : bool :=
  match e with
  | AsyncioTimeoutError => true
  | TimeoutError _ => timeout_alias rt
  | _ => false
  end.

(** [isinstance(e, TimeoutError)], line 85. *)
Definition isinstance_TimeoutError (e : exn) : bool :=
  match e with
  | TimeoutError _ => true
  | AsyncioTimeoutError => timeout_alias rt
  | _ => false
  end.

(** Line 104. *)
Definition attempt_timeout (retry : Z) : Q :=
  (base_timeout self * inject_Z (retry + 1))%Q.

(** Lines 118 and 126. *)
Definition backoff_delay (retry : Z) : Z := 1 * (retry + 1).

(** The [for retry in range(self.max_retries)] loop from index [retry]
    on, with [remaining] indices left. Falling off the loop returns
    [None]. *)
Fixpoint attempts (remaining : nat) (retry : Z) (req : request) : M pyval :=
  match remaining with
  | O => ret PyNone
  | S rest =>
      let timeout := attempt_timeout retry in
      try_except
        (log Debug (LogAttempt (retry + 1) (max_retries self) timeout) ;;
         run_with_deadline req timeout)
        (fun e =>
           if isinstance_asyncio_TimeoutError e then
             log Warning (LogRequestTimedOut timeout (retry + 1) (max_retries self)) ;;
             if retry <? max_retries self - 1 then
               asyncio_sleep Backoff (backoff_delay retry) ;;
               attempts rest (retry + 1) req
             else
               log Error LogAllTimedOut ;;
               raise (TimeoutError (MsgRequestFailedAfter (max_retries self)))
           else
             log Warning (LogRequestFailed e (retry + 1) (max_retries self)) ;;
             if retry <? max_retries self - 1 then
               asyncio_sleep Backoff (backoff_delay retry) ;;
               attempts rest (retry + 1) req
             else
               log Error (LogAllFailed e) ;;
               raise e)
  end.

Definition make_api_request_async (req : request) : M pyval :=
  attempts (Z.to_nat (max_retries self)) 0 req.

(** What the executor raises once its last attempt failed with [e]
    (lines 121 and 129). *)
Definition final_error (e : exn) : exn :=
  if isinstance_asyncio_TimeoutError e
  then TimeoutError (MsgRequestFailedAfter (max_retries self))
  else e.

(** The locals of [_check_run_status] that change between iterations. *)
Record poll_state : Type := mkPoll
  { run_id : string; start_time : Q; retry_count : Z }.

(** How one pass through the [while] body ends: [continue] (or falling
    to the end of the body) with the new locals, or [return run]. *)
Inductive control : Type :=
| Continue (st : poll_state)
| Return (v : pyval).

Definition callback_t : Type := pyval -> World rt -> option exn * World rt.

Definition await_callback (cb : callback_t) (run : pyval) : M unit :=
  fun w =>
    let (raised, w1) := cb run w in
    (match raised with None => Ok tt | Some e => Raise e end,
     w1, [EvCallback run raised]).

(** Lines 28-82, the body of the inner [try]. *)
Definition poll_body (thread_id : string) (callback : option callback_t)
    (st : poll_state) : M control :=
  run <- make_api_request_async (RunsRetrieve thread_id (run_id st)) ;;
  match run with
  | PyNone => raise (AttributeError "status")
  | PyRun r =>
      if py_in (Run.status r) ["failed"; "expired"; "cancelled"] then
        log Error (LogRunFailed (Run.status r)) ;;
        if retry_count st <? max_run_retries self then
          let retry_count' := retry_count st + 1 in
          log Info (LogRetryingRun retry_count' (max_run_retries self)) ;;
          run' <- make_api_request_async
                    (RunsCreate thread_id (Run.assistant_id r)) ;;
          match run' with
          | PyNone => raise (AttributeError "id")
          | PyRun r' =>
              ret (Continue {| run_id := Run.id r';
                               start_time := start_time st;
                               retry_count := retry_count' |})
          end
        else
          raise (Exception (MsgRunFailedAfter (max_run_retries self)))
      else if negb (py_in (Run.status r) ["queued"; "in_progress"]) then
        match callback with
        | Some cb => await_callback cb run
        | None => ret tt
        end ;;
        ret (Return run)
      else
        now <- loop_time ;;
        let elapsed_time := (now - start_time st)%Q in
        if Qgtb elapsed_time (run_timeout self) then
          if retry_count st <? max_run_retries self then
            let retry_count' := retry_count st + 1 in
            log Warning (LogRunTimedOutRetrying retry_count' (max_run_retries self)) ;;
            try_except
              (make_api_request_async (RunsCancel thread_id (run_id st)) ;;
               ret tt)
              (fun _ => ret tt) ;;
            run' <- make_api_request_async
                      (RunsCreate thread_id (Run.assistant_id r)) ;;
            match run' with
            | PyNone => raise (AttributeError "id")
            | PyRun r' =>
                now' <- loop_time ;;
                ret (Continue {| run_id := Run.id r';
                                 start_time := now';
                                 retry_count := retry_count' |})
            end
          else
            raise (TimeoutError
                     (MsgRunTimedOutAfter (run_timeout self) (max_run_retries self)))
        else
          asyncio_sleep PollInterval 1 ;;
          ret (Continue st)
  end.

(** Lines 27-87: the body under its [except Exception as e: ... raise]. *)
Definition iteration (thread_id : string) (callback : option callback_t)
    (st : poll_state) : M control :=
  try_except (poll_body thread_id callback st)
    (fun e =>
       (if isinstance_TimeoutError e then ret tt
        else log Error (LogErrorChecking e)) ;;
       raise e).

(** Where the [while] loop stands after at most [fuel] passes. *)
Inductive polling : Type :=
| Finished (v : pyval)
| StillPolling (st : poll_state).

(** [while self._run_status_check: ...]; leaving the loop by its
    condition falls to the end of the function, which returns [None]. *)
Fixpoint poll_loop (fuel : nat) (thread_id : string)
    (callback : option callback_t) (st : poll_state) : M polling :=
  match fuel with
  | O => ret (StillPolling st)
  | S fuel' =>
      fun w =>
        if run_status_check rt w then
          (c <- iteration thread_id callback st ;;
           match c with
           | Continue st' => poll_loop fuel' thread_id callback st'
           | Return v => ret (Finished v)
           end) w
        else (Ok (Finished PyNone), w, [])
  end.

(** How a pass on the timeout path ends, given what the awaited
    recreation (lines 72-78) came back with in world [w3]. *)
Definition after_recreate (st : poll_state) (res : result pyval) (w3 : World rt)
  : result control :=
  match res with
  | Ok (PyRun r') =>
      Ok (Continue {| run_id := Run.id r';
                      start_time := time rt w3;
                      retry_count := retry_count st + 1 |})
  | Ok PyNone => Raise (AttributeError "id")
  | Raise e' => Raise e'
  end.

Definition _check_run_status (fuel : nat) (thread_id run_id0 : string)
    (callback : option callback_t) : M polling :=
  start <- loop_time ;;
  try_except
    (poll_loop fuel thread_id callback
       {| run_id := run_id0; start_time := start; retry_count := 0 |})
    (fun e => log Error (LogFinalError e) ;; raise e).

End Coroutines.

Arguments ret {rt A} a w.
Arguments raise {rt A} e w.
Arguments bind {rt A B} m k w.
Arguments try_except {rt A} m h w.

Notation "x <- m ;; k" := (bind m (fun x => k))
  (at level 61, m at next level, right associativity).
Notation "m ;; k" := (bind m (fun _ => k))
  (at level 61, right associativity).

(** ** What a trace shows *)

(** Outcome of every attempt, in order. *)
Definition invocations (tr : trace) : list attempt :=
  flat_map (fun ev => match ev with EvRequest _ _ out => [out] | _ => [] end) tr.

(** Seconds slept at one call site, in order. *)
Definition sleeps (site : sleep_site) (tr : trace) : list Z :=
  flat_map (fun ev =>
              match ev, site with
              | EvSleep Backoff s, Backoff => [s]
              | EvSleep PollInterval s, PollInterval => [s]
              | _, _ => []
              end) tr.

(** Deadlines handed to the offload bridge ([inl]) and backoff sleeps
    ([inr]), interleaved as they happened. *)
Definition schedule (tr : trace) : list (Q + Z) :=
  flat_map (fun ev =>
              match ev with
              | EvRequest _ t _ => [inl t]
              | EvSleep Backoff s => [inr s]
              | _ => []
              end) tr.

(** Argument and outcome of every callback invocation. *)
Definition callbacks (tr : trace) : list (pyval * option exn) :=
  flat_map (fun ev => match ev with EvCallback v r => [(v, r)] | _ => [] end) tr.

(** Every recreation of the run announces itself in the log with the
    value [retry_count] has just been given (lines 39 and 61). *)
Definition recreations (tr : trace) : list Z :=
  flat_map (fun ev =>
              match ev with
              | EvLog _ (LogRetryingRun n _) => [n]
              | EvLog _ (LogRunTimedOutRetrying n _) => [n]
              | _ => []
              end) tr.

(** Requests made, in order. *)
Definition requests (tr : trace) : list request :=
  flat_map (fun ev => match ev with EvRequest req _ _ => [req] | _ => [] end) tr.

Definition failed_with (p : exn -> bool) (out : attempt) : bool :=
  match out with
  | Failed e => p e
  | Returned _ => false
  end.

(** ** A scripted runtime

    A world that answers the awaited calls from a script. Each reply
    says what the remote operation answers, how long it takes and whether
    another task calls [cleanup] meanwhile. A reply slower than the
    deadline is cut off by [asyncio.TimeoutError] at the deadline. *)
Module Sim.

Record reply : Type := mkReply
  { answer : attempt; latency : Q; cleanup : bool }.

Record world : Type := mkWorld
  { script : list reply; clock : Q; flag : bool }.

Definition await_reply (req : request) (timeout : Q) (w : world) : attempt * world :=
  match script w with
  | [] => (Failed (RemoteError "APIConnectionError" "Connection error."), w)
  | r :: rest =>
      if Qgtb (latency r) timeout then
        (Failed AsyncioTimeoutError,
         {| script := rest; clock := Qred (clock w + timeout);
            flag := flag w && negb (cleanup r) |})
      else
        (answer r,
         {| script := rest; clock := Qred (clock w + latency r);
            flag := flag w && negb (cleanup r) |})
  end.

Definition pass_time (seconds : Z) (w : world) : world :=
  {| script := script w; clock := Qred (clock w + inject_Z seconds); flag := flag w |}.

Definition runtime (alias : bool) : Runtime :=
  {| World := world;
     timeout_alias := alias;
     wait_for := await_reply;
     sleep := pass_time;
     time := clock;
     run_status_check := flag |}.

Definition start (replies : list reply) : world :=
  {| script := replies; clock := 0; flag := true |}.

Definition run_ (name status : string) : pyval :=
  PyRun (Run.make name "asst_1" status).

Definition answers (v : pyval) (secs : Q) : reply :=
  {| answer := Returned v; latency := secs; cleanup := false |}.

Definition fails (e : exn) (secs : Q) : reply :=
  {| answer := Failed e; latency := secs; cleanup := false |}.

Definition retrieve : request := RunsRetrieve "thread_1" "run_1".

(** Two attempts, each refused by the remote side. *)
Definition refused : world :=
  start [fails (RemoteError "APIConnectionError" "Connection error.") 1;
         fails (RemoteError "RateLimitError" "Too many requests.") 1].

(** Two attempts, each slower than its deadline (30 s, then 60 s). *)
Definition too_slow : world :=
  start [answers (run_ "run_1" "queued") 31;
         answers (run_ "run_1" "queued") 61].

(** A run that fails after 29 s and is recreated within a second; the
    new run is still in progress two seconds later. *)
Definition stale_timer : world :=
  start [answers (run_ "run_1" "failed") 29;
         answers (run_ "run_2" "queued") 1;
         answers (run_ "run_2" "in_progress") 2;
         answers (run_ "run_2" "cancelled") 1;
         answers (run_ "run_3" "queued") 1;
         answers (run_ "run_3" "failed") 1].

(** Status reads queued, in_progress, completed, a second apart. *)
Definition completes : world :=
  start [answers (run_ "run_1" "queued") 1;
         answers (run_ "run_1" "in_progress") 1;
         answers (run_ "run_1" "completed") 1].




(** A stuck run whose cancellation is refused twice. *)
Definition stuck : world :=
  start [answers (run_ "run_1" "in_progress") 31;
         answers (run_ "run_1" "in_progress") 1;
         fails (RemoteError "BadRequestError" "Cannot cancel run.") 1;
         fails (RemoteError "BadRequestError" "Cannot cancel run.") 1;
         answers (run_ "run_2" "queued") 1].

(** A run that fails, and a replacement that completes. *)
Definition fails_once : world :=
  start [answers (run_ "run_1" "failed") 1;
         answers (run_ "run_2" "queued") 1;
         answers (run_ "run_2" "completed") 1].

(** A run that needs the caller to act. *)
Definition wants_action : world :=
  start [answers (run_ "run_1" "requires_action") 1].

(** A service that refuses the status read twice. *)
Definition unreachable : world :=
  start [fails (RemoteError "APIConnectionError" "Connection error.") 1;
         fails (RemoteError "APIConnectionError" "Connection error.") 1].

Definition notify (v : pyval) (w : world) : option exn * world := (None, w).


Definition thread : string := "thread_1".

(** The first attempt is cut off at 30 s, the second answers in time. *)
Definition slow_then_fine : world :=
  start [answers (run_ "run_1" "queued") 45;
         answers (run_ "run_1" "queued") 45].

End Sim.

(** Deadlines handed to the offload bridge, in order. *)
Definition deadlines (tr : trace) : list Q :=
  flat_map (fun ev => match ev with EvRequest _ t _ => [t] | _ => [] end) tr.

(** The [thread_id] argument of a call. *)
Definition thread_of (req : request) : string :=
  match req with
  | RunsRetrieve t _ => t
  | RunsCreate t _ => t
  | RunsCancel t _ => t
  end.

Definition is_cancel (req : request) : bool :=
  match req with RunsCancel _ _ => true | _ => false end.

Definition is_create (req : request) : bool :=
  match req with RunsCreate _ _ => true | _ => false end.

(** Attempt numbers of the recreations the timeout path announced
    (line 61). *)
Definition timeout_recreations (tr : trace) : list Z :=
  flat_map (fun ev =>
              match ev with
              | EvLog _ (LogRunTimedOutRetrying n _) => [n]
              | _ => []
              end) tr.

Definition Zsum (l : list Z) : Z := fold_right Z.add 0 l.

Definition Qsum (l : list Q) : Q := fold_right Qplus 0%Q l.

(** ** Values decoded from JSON

    What [json.loads] and [json.load] build: [JObject] is a dict, given
    by its items (keys distinct), [JArray] a list. *)

#[local] Unset Elimination Schemes.
Inductive json : Type :=
| JNull
| JBool (b : bool)
| JNumber (q : Q)
| JString (s : string)
| JArray (items : list json)
| JObject (items : list (string * json)).
#[local] Set Elimination Schemes.

(** ** [core/interview_session.py]: [_process_response] *)
Module InterviewSession.

Inductive error : Type :=
| IndexError
| KeyError (key : string)
| JSONDecodeError
| TypeError
| AttributeError (attr : string).

(** A content block of a thread message: only a text block has [.text]. *)
Inductive content_block : Type :=
| TextContentBlock (value : string)
| ImageFileContentBlock.

(** [message.content] *)
Definition message : Type := list content_block.

(** What [_process_response] is handed: the page of messages with its
    [.data], or [None]. *)
Definition messages : Type := option (list message).

(** [messages.data[0].content[0].text.value] *)
Definition first_text (m : messages) : error + string :=
  match m with
  | None => inl (AttributeError "data")
  | Some [] => inl IndexError
  | Some ([] :: _) => inl IndexError
  | Some ((ImageFileContentBlock :: _) :: _) => inl (AttributeError "text")
  | Some ((TextContentBlock value :: _) :: _) => inr value
  end.

(** [j[key]] for a string [key]: only a dict can be subscripted so. *)
Definition getitem (j : json) (key : string) : error + json :=
  match j with
  | JObject items =>
      match find (fun kv => String.eqb (fst kv) key) items with
      | Some (_, v) => inr v
      | None => inl (KeyError key)
      end
  | _ => inl TypeError
  end.

(** [j == s] for a string literal [s]. *)
Definition eq_str (j : json) (s : string) : bool :=
  match j with
  | JString t => String.eqb t s
  | _ => false
  end.

(** [response_data["data"]["message_type"]] *)
Definition message_type (response_data : json) : error + json :=
  match getitem response_data "data" with
  | inl e => inl e
  | inr data => getitem data "message_type"
  end.

(** The clause [except (json.JSONDecodeError, KeyError, IndexError)]. *)
Definition caught (e : error) : bool :=
  match e with
  | JSONDecodeError | KeyError _ | IndexError => true
  | TypeError | AttributeError _ => false
  end.

(** The [enum] of [message_type] in the interviewer's response schema
    ([core/assistant_manager.py], lines 110-115). *)
Definition schema_message_types : list string :=
  ["question"; "follow_up"; "final_eval"; "others"].

Section ProcessResponse.

(** [json.loads]; [None] stands for [json.JSONDecodeError]. *)
Variable loads : string -> option json.

(** The interview configuration object, whose class is not part of
    these sources: its state, [increment_question()], and the
    assignment [is_completed = True]. *)
Variable Config : Type.
Variable increment_question : Config -> Config.
Variable set_is_completed : Config -> Config.

Record outcome : Type := mkOutcome
  { returned : error + string;
    config : Config;
    logged : list error }.

(** Lines 18-26, the body of the [try]. *)
Definition process_body (m : messages) (c : Config) : (error + string) * Config :=
  match first_text m with
  | inl e => (inl e, c)
  | inr response =>
      match loads response with
      | None => (inl JSONDecodeError, c)
      | Some response_data =>
          match message_type response_data with
          | inl e => (inl e, c)
          | inr t =>
              if eq_str t "question" then (inr response, increment_question c)
              else
                match message_type response_data with
                | inl e => (inl e, c)
                | inr t' =>
                    if eq_str t' "final_evaluation"
                    then (inr response, set_is_completed c)
                    else (inr response, c)
                end
          end
      end
  end.

Definition _process_response (m : messages) (c : Config) : outcome :=
  let (r, c') := process_body m c in
  {| returned := r;
     config := c';
     logged := match r with
               | inl e => if caught e then [e] else []
               | inr _ => []
               end |}.

End ProcessResponse.

End InterviewSession.

(** ** [core/portfolio_manager.py]: the validation cache *)
Module PortfolioManager.

(** A value of [portfolio_cache]: a dict with the three keys
    [validate_portfolio] writes (lines 126-130); a key may be absent
    from an entry read back from the cache file. *)
Record entry : Type := mkEntry
  { validation_result : option json;
    file_path : option string;
    last_accessed : option Q }.

(** [portfolio_cache]: file hash to entry, in insertion order. *)
Definition cache : Type := list (string * entry).

(** Line 159: 30 days in seconds. *)
Definition max_age : Z := 30 * 24 * 60 * 60.

(** [a < b] on seconds. *)
Definition Qltb (a b : Q) : bool :=
  match (a ?= b)%Q with Lt => true | _ => false end.

(** The dict comprehension of lines 160-164; [v["last_accessed"]] on an
    entry without that key raises [KeyError]. *)
Fixpoint retain (current_time : Q) (items : cache) : InterviewSession.error + cache :=
  match items with
  | [] => inr []
  | (k, v) :: rest =>
      match last_accessed v with
      | None => inl (InterviewSession.KeyError "last_accessed")
      | Some t =>
          match retain current_time rest with
          | inl e => inl e
          | inr kept =>
              inr (if Qltb (current_time - t) (inject_Z max_age)
                   then (k, v) :: kept else kept)
          end
      end
  end.

Inductive save_log : Type :=
| SavedSuccessfully
| ErrorSaving (detail : string).

Section Cleanup.

(** The surroundings: the clock and the cache file. Writing the file
    ([open] and [json.dump]) may raise. *)
Variable Env : Type.
Variable time_time : Env -> Q.
Variable write_cache : cache -> Env -> option string * Env.

(** Lines 32-39. *)
Definition _save_cache (c : cache) (env : Env) : Env * list save_log :=
  match write_cache c env with
  | (None, env') => (env', [SavedSuccessfully])
  | (Some detail, env') => (env', [ErrorSaving detail])
  end.

Record cleaned : Type := mkCleaned
  { raised : option InterviewSession.error;
    portfolio_cache : cache;
    env_after : Env;
    save_logs : list save_log }.

(** Lines 156-165. *)
Definition cleanup (c : cache) (env : Env) : cleaned :=
  let current_time := time_time env in
  match retain current_time c with
  | inl e =>
      {| raised := Some e; portfolio_cache := c; env_after := env; save_logs := [] |}
  | inr kept =>
      let (env', logs) := _save_cache kept env in
      {| raised := None; portfolio_cache := kept; env_after := env'; save_logs := logs |}
  end.

End Cleanup.

(** *** [cleanup] on whatever [_load_cache] left

    [_load_cache] stores what [json.load] returns: the cache may then be
    no dict at all, and a value of it may be any JSON value. What
    [cleanup] does with a value is to evaluate
    [current_time - v["last_accessed"] < max_age]; Python decides whether
    that gives a truth value or raises ([KeyError] for a dict without
    the key, [TypeError] for a value that cannot be subscripted by a
    string or subtracted from a float, ...). That evaluation is the
    parameter [is_recent]; the entries above are the values for which
    it is known. *)
Section AnyCache.

Variable Value : Type.
Variable Other : Type.
Variable Error : Type.

(** [AttributeError]: the object has no attribute [items]. *)
Variable no_items : Error.

(** [current_time - v["last_accessed"] < max_age] *)
Variable is_recent : Q -> Value -> Error + bool.

Inductive held : Type :=
| Dict (items : list (string * Value))
| NotADict (o : Other).

Variable Env : Type.
Variable time_time : Env -> Q.
Variable write_held : held -> Env -> option string * Env.

(** The dict comprehension of lines 160-164. *)
Fixpoint retain_any (current_time : Q) (items : list (string * Value))
  : Error + list (string * Value) :=
  match items with
  | [] => inr []
  | (k, v) :: rest =>
      match is_recent current_time v with
      | inl e => inl e
      | inr recent =>
          match retain_any current_time rest with
          | inl e => inl e
          | inr kept => inr (if recent then (k, v) :: kept else kept)
          end
      end
  end.

(** Lines 32-39. *)
Definition _save_cache_any (h : held) (env : Env) : Env * list save_log :=
  match write_held h env with
  | (None, env') => (env', [SavedSuccessfully])
  | (Some detail, env') => (env', [ErrorSaving detail])
  end.

Record cleaned_any : Type := mkCleanedAny
  { raised_any : option Error;
    held_after : held;
    env_after_any : Env;
    save_logs_any : list save_log }.

(** Lines 156-165. *)
Definition cleanup_any (h : held) (env : Env) : cleaned_any :=
  let current_time := time_time env in
  match h with
  | NotADict _ =>
      {| raised_any := Some no_items; held_after := h;
         env_after_any := env; save_logs_any := [] |}
  | Dict items =>
      match retain_any current_time items with
      | inl e =>
          {| raised_any := Some e; held_after := h;
             env_after_any := env; save_logs_any := [] |}
      | inr kept =>
          let (env', logs) := _save_cache_any (Dict kept) env in
          {| raised_any := None; held_after := Dict kept;
             env_after_any := env'; save_logs_any := logs |}
      end
  end.

End AnyCache.

(** [is_recent] on an entry: subscripting raises [KeyError] when the key
    is absent. *)
Definition is_recent_entry (current_time : Q) (v : entry)
  : InterviewSession.error + bool :=
  match last_accessed v with
  | None => inl (InterviewSession.KeyError "last_accessed")
  | Some t => inr (Qltb (current_time - t) (inject_Z max_age))
  end.

(** A cache of two portfolios, last accessed at second 0 and at second
    2592000, and surroundings that are just the clock and whose cache
    file cannot be written. *)
Definition accessed_at (t : Q) : entry :=
  {| validation_result := Some (JObject [("valid", JBool true)]);
     file_path := Some "portfolio.pdf";
     last_accessed := Some t |}.

Definition two_portfolios : cache :=
  [("hash_a", accessed_at 0); ("hash_b", accessed_at 2592000)].

Definition disk_full (c : cache) (clock : Q) : option string * Q :=
  (Some "No space left on device", clock).

End PortfolioManager.

(** ** Reading traces *)

Lemma invocations_app (a b : trace) :
  invocations (a ++ b) = invocations a ++ invocations b.
Proof. apply flat_map_app. Qed.

Lemma invocations_nil : invocations [] = [].
Proof. reflexivity. Qed.

Lemma invocations_cons (ev : event) (tr : trace) :
  invocations (ev :: tr) =
    match ev with EvRequest _ _ out => [out] | _ => [] end ++ invocations tr.
Proof. reflexivity. Qed.

Lemma sleeps_app (site : sleep_site) (a b : trace) :
  sleeps site (a ++ b) = sleeps site a ++ sleeps site b.
Proof. apply flat_map_app. Qed.

Lemma sleeps_nil (site : sleep_site) : sleeps site [] = [].
Proof. reflexivity. Qed.

Lemma sleeps_cons (site : sleep_site) (ev : event) (tr : trace) :
  sleeps site (ev :: tr) =
    match ev, site with
     | EvSleep Backoff s, Backoff => [s]
     | EvSleep PollInterval s, PollInterval => [s]
     | _, _ => []
     end ++ sleeps site tr.
Proof. reflexivity. Qed.

Lemma schedule_app (a b : trace) :
  schedule (a ++ b) = schedule a ++ schedule b.
Proof. apply flat_map_app. Qed.

Lemma schedule_nil : schedule [] = [].
Proof. reflexivity. Qed.

Lemma schedule_cons (ev : event) (tr : trace) :
  schedule (ev :: tr) =
    match ev with
     | EvRequest _ t _ => [inl t]
     | EvSleep Backoff s => [inr s]
     | _ => []
     end ++ schedule tr.
Proof. reflexivity. Qed.

Lemma callbacks_app (a b : trace) :
  callbacks (a ++ b) = callbacks a ++ callbacks b.
Proof. apply flat_map_app. Qed.

Lemma callbacks_nil : callbacks [] = [].
Proof. reflexivity. Qed.

Lemma callbacks_cons (ev : event) (tr : trace) :
  callbacks (ev :: tr) =
    match ev with EvCallback v r => [(v, r)] | _ => [] end ++ callbacks tr.
Proof. reflexivity. Qed.

Lemma recreations_app (a b : trace) :
  recreations (a ++ b) = recreations a ++ recreations b.
Proof. apply flat_map_app. Qed.

Lemma recreations_nil : recreations [] = [].
Proof. reflexivity. Qed.

Lemma recreations_cons (ev : event) (tr : trace) :
  recreations (ev :: tr) =
    match ev with
     | EvLog _ (LogRetryingRun n _) => [n]
     | EvLog _ (LogRunTimedOutRetrying n _) => [n]
     | _ => []
     end ++ recreations tr.
Proof. reflexivity. Qed.

Lemma requests_app (a b : trace) :
  requests (a ++ b) = requests a ++ requests b.
Proof. apply flat_map_app. Qed.

Lemma requests_nil : requests [] = [].
Proof. reflexivity. Qed.

Lemma requests_cons (ev : event) (tr : trace) :
  requests (ev :: tr) =
    match ev with EvRequest req _ _ => [req] | _ => [] end ++ requests tr.
Proof. reflexivity. Qed.

Create Rewrite HintDb observe.
#[local] Hint Rewrite invocations_app invocations_nil invocations_cons sleeps_app sleeps_nil sleeps_cons schedule_app schedule_nil schedule_cons callbacks_app callbacks_nil callbacks_cons recreations_app recreations_nil recreations_cons requests_app requests_nil requests_cons : observe.

Arguments make_api_request_async : simpl never.
Arguments py_in : simpl never.
Arguments Qgtb : simpl never.
Arguments invocations : simpl never.
Arguments sleeps : simpl never.
Arguments schedule : simpl never.
Arguments callbacks : simpl never.
Arguments recreations : simpl never.
Arguments requests : simpl never.

Ltac observe := autorewrite with observe; cbn.
Ltac observe_in H := autorewrite with observe in H; cbn in H.

(** ** The request executor *)

Section Executor.

Variable rt : Runtime.
Variable self : APIClient.

Lemma attempts_S (k : nat) (retry : Z) (req : request) (w : World rt) :
  attempts rt self (S k) retry req w =
  let timeout := attempt_timeout self retry in
  let head := [EvLog Debug (LogAttempt (retry + 1) (max_retries self) timeout)] in
  match wait_for rt req timeout w with
  | (Returned v, w1) => (Ok v, w1, head ++ [EvRequest req timeout (Returned v)])
  | (Failed e, w1) =>
      let seen := head ++ [EvRequest req timeout (Failed e)] in
      let warn :=
        if isinstance_asyncio_TimeoutError rt e
        then EvLog Warning (LogRequestTimedOut timeout (retry + 1) (max_retries self))
        else EvLog Warning (LogRequestFailed e (retry + 1) (max_retries self)) in
      if retry <? max_retries self - 1 then
        let '(r, w2, t2) :=
          attempts rt self k (retry + 1) req (sleep rt (backoff_delay retry) w1) in
        (r, w2, seen ++ warn :: EvSleep Backoff (backoff_delay retry) :: t2)
      else if isinstance_asyncio_TimeoutError rt e then
        (Raise (TimeoutError (MsgRequestFailedAfter (max_retries self))), w1,
         seen ++ [warn; EvLog Error LogAllTimedOut])
      else
        (Raise e, w1, seen ++ [warn; EvLog Error (LogAllFailed e)])
  end.
Proof.
  cbn [attempts]. unfold try_except, bind, log, run_with_deadline.
  destruct (wait_for rt req (attempt_timeout self retry) w) as [[v|e] w1]; cbn.
  - reflexivity.
  - destruct (isinstance_asyncio_TimeoutError rt e);
      destruct (retry <? max_retries self - 1); cbn;
      try reflexivity;
      destruct (attempts rt self k (retry + 1) req _) as [[r w2] t2]; reflexivity.
Qed.

Lemma attempts_all_fail (req : request) (k : nat) :
  forall retry w r w' tr,
    retry + Z.of_nat (S k) = max_retries self ->
    attempts rt self (S k) retry req w = (r, w', tr) ->
    forallb (failed_with (fun _ => true)) (invocations tr) = true ->
    List.length (invocations tr) = S k /\
    List.length (sleeps Backoff tr) = k /\
    exists tr1 e tr2,
      tr = tr1 ++ EvRequest req (attempt_timeout self (max_retries self - 1)) (Failed e) :: tr2 /\
      invocations tr2 = [] /\ sleeps Backoff tr2 = [] /\
      r = Raise (final_error rt self e).
Proof.
  induction k as [|k IH]; intros retry w r w' tr Hinv Hrun Hfail;
    rewrite attempts_S in Hrun; cbv zeta in Hrun;
    destruct (wait_for rt req (attempt_timeout self retry) w) as [[v|e] w1].
  - inversion Hrun; subst. discriminate Hfail.
  - assert (Hlast : retry = max_retries self - 1) by lia.
    assert (Hlt : (retry <? max_retries self - 1) = false) by (apply Z.ltb_ge; lia).
    rewrite Hlt in Hrun. unfold final_error.
    destruct (isinstance_asyncio_TimeoutError rt e) eqn:He; inversion Hrun; subst;
      (split; [reflexivity | split; [reflexivity |]]);
      eexists [_], e, [_; _]; rewrite He; repeat split; reflexivity.
  - inversion Hrun; subst. discriminate Hfail.
  - assert (Hlt : (retry <? max_retries self - 1) = true) by (apply Z.ltb_lt; lia).
    rewrite Hlt in Hrun.
    destruct (attempts rt self (S k) (retry + 1) req _) as [[r2 w2] t2] eqn:Hrest.
    inversion Hrun; subst; clear Hrun.
    observe_in Hfail.
    assert (Hinv' : retry + 1 + Z.of_nat (S k) = max_retries self) by lia.
    destruct (IH _ _ _ _ _ Hinv' Hrest) as (Hn & Hs & Hex).
    { destruct (isinstance_asyncio_TimeoutError rt e); cbn in Hfail; exact Hfail. }
    split; [| split].
    + observe. destruct (isinstance_asyncio_TimeoutError rt e); cbn; now rewrite Hn.
    + observe. destruct (isinstance_asyncio_TimeoutError rt e); cbn; now rewrite Hs.
    + destruct Hex as (tr1 & e' & tr2 & -> & Hi2 & Hs2 & ->).
      eexists (_ :: _ :: _ :: _ :: tr1), e', tr2. repeat split; try assumption.
Qed.

Lemma attempts_schedule (req : request) (k : nat) :
  forall retry w r w' tr,
    attempts rt self k retry req w = (r, w', tr) ->
    forall i x,
      (nth_error (schedule tr) (2 * i) = Some x ->
       x = inl (attempt_timeout self (retry + Z.of_nat i))) /\
      (nth_error (schedule tr) (2 * i + 1) = Some x ->
       x = inr (backoff_delay (retry + Z.of_nat i))).
Proof.
  induction k as [|k IH]; intros retry w r w' tr Hrun i x.
  - inversion Hrun; subst. rewrite schedule_nil.
    split; intros H; [destruct (2 * i)%nat | destruct (2 * i + 1)%nat]; discriminate H.
  - rewrite attempts_S in Hrun; cbv zeta in Hrun.
    assert (Hone : forall t,
               (nth_error [@inl Q Z t] (2 * i) = Some x ->
                t = attempt_timeout self retry ->
                x = inl (attempt_timeout self (retry + Z.of_nat i))) /\
               (nth_error [@inl Q Z t] (2 * i + 1) = Some x ->
                x = inr (backoff_delay (retry + Z.of_nat i)))).
    { intros t. destruct i as [|i].
      - cbn. rewrite Z.add_0_r. split; [intros [= <-] -> | intros [=]]; reflexivity.
      - replace (2 * S i)%nat with (S (S (2 * i))) by lia. cbn.
        split; intros H; [destruct (2 * i)%nat | destruct (2 * i + 1)%nat]; discriminate H. }
    destruct (wait_for rt req (attempt_timeout self retry) w) as [[v|e] w1].
    + inversion Hrun; subst. observe.
      split; intros H; [eapply (proj1 (Hone _)) | eapply (proj2 (Hone _))]; eauto.
    + destruct (retry <? max_retries self - 1).
      * destruct (attempts rt self k (retry + 1) req _) as [[r2 w2] t2] eqn:Hrest.
        inversion Hrun; subst; clear Hrun.
        specialize (IH _ _ _ _ _ Hrest).
        match goal with
        | |- context [schedule ?t] =>
            assert (Hsched : schedule t =
              inl (attempt_timeout self retry) :: inr (backoff_delay retry) :: schedule t2)
        end.
        { observe. destruct (isinstance_asyncio_TimeoutError rt e); reflexivity. }
        rewrite Hsched. destruct i as [|i].
        -- cbn. rewrite Z.add_0_r. split; intros [= <-]; reflexivity.
        -- replace (2 * S i)%nat with (S (S (2 * i))) by lia.
           replace (retry + Z.of_nat (S i)) with (retry + 1 + Z.of_nat i) by lia.
           cbn [nth_error Nat.add]. apply IH.
      * assert (Hsched : schedule tr = [inl (attempt_timeout self retry)]).
        { destruct (isinstance_asyncio_TimeoutError rt e);
            inversion Hrun; subst; reflexivity. }
        rewrite Hsched.
        split; intros H; [eapply (proj1 (Hone _)) | eapply (proj2 (Hone _))]; eauto.
Qed.

(** The executor neither sleeps the poll interval, nor calls the
    callback, nor recreates a run. *)
Lemma attempts_quiet (req : request) (k : nat) :
  forall retry w r w' tr,
    attempts rt self k retry req w = (r, w', tr) ->
    sleeps PollInterval tr = [] /\ callbacks tr = [] /\ recreations tr = [].
Proof.
  induction k as [|k IH]; intros retry w r w' tr Hrun.
  - inversion Hrun; subst. repeat split.
  - rewrite attempts_S in Hrun; cbv zeta in Hrun.
    destruct (wait_for rt req (attempt_timeout self retry) w) as [[v|e] w1].
    + inversion Hrun; subst. repeat split.
    + destruct (retry <? max_retries self - 1).
      * destruct (attempts rt self k (retry + 1) req _) as [[r2 w2] t2] eqn:Hrest.
        inversion Hrun; subst; clear Hrun.
        destruct (IH _ _ _ _ _ Hrest) as (Hs & Hc & Hr).
        observe. rewrite Hs, Hc, Hr.
        destruct (isinstance_asyncio_TimeoutError rt e); repeat split.
      * destruct (isinstance_asyncio_TimeoutError rt e);
          inversion Hrun; subst; repeat split.
Qed.

Lemma make_api_request_async_quiet (req : request) w r w' tr :
  make_api_request_async rt self req w = (r, w', tr) ->
  sleeps PollInterval tr = [] /\ callbacks tr = [] /\ recreations tr = [].
Proof. apply attempts_quiet. Qed.

End Executor.

(** ** The polling loop *)

(** Case analysis of a run of the loop body [H], in program order. *)
Ltac crunch H :=
  repeat (cbn beta iota zeta in H;
    match type of H with
    | context [match make_api_request_async ?r ?s ?req ?w with _ => _ end] =>
        let E := fresh "E" in
        destruct (make_api_request_async r s req w) as [[[[|?]|?] ?] ?] eqn:E;
        apply make_api_request_async_quiet in E; destruct E as (? & ? & ?)
    | context [if py_in ?a ?b then _ else _] => destruct (py_in a b) eqn:?
    | context [if negb ?b then _ else _] => destruct b eqn:?; cbn [negb] in H
    | context [if Z.ltb ?a ?b then _ else _] => destruct (Z.ltb a b) eqn:?
    | context [if Qgtb ?a ?b then _ else _] => destruct (Qgtb a b) eqn:?
    | context [match ?f ?a ?w with _ => _ end] =>
        is_var f; destruct (f a w) as [[?|] ?] eqn:?
    | context [match ?x with _ => _ end] => is_var x; destruct x
    end).

Ltac quiet :=
  repeat match goal with
    | Hq : _ = [] |- _ => rewrite ?Hq; clear Hq
    end;
  cbn [app]; rewrite ?app_nil_r.

Section Polling.

Variable rt : Runtime.
Variable self : APIClient.
Variable thread_id : string.
Variable callback : option (callback_t rt).

Lemma try_except_inv {A} (m : M rt A) (h : exn -> M rt A) w r w' tr :
  try_except m h w = (r, w', tr) ->
  (exists a, m w = (Ok a, w', tr) /\ r = Ok a) \/
  (exists e w1 t1 t2,
      m w = (Raise e, w1, t1) /\ h e w1 = (r, w', t2) /\ tr = t1 ++ t2).
Proof.
  unfold try_except. destruct (m w) as [[[a|e] w1] t1].
  - intros [= <- <- <-]. left. now exists a.
  - destruct (h e w1) as [[r2 w2] t2] eqn:Hh. intros [= <- <- <-].
    right. now exists e, w1, t1, t2.
Qed.

(** The handler of line 84 logs (or not) and raises the same error. *)
Lemma iteration_handler (e : exn) w :
  exists t,
    ((if isinstance_TimeoutError rt e then ret tt
      else log rt Error (LogErrorChecking e)) ;; @raise rt control e) w
    = (Raise e, w, t) /\
    sleeps PollInterval t = [] /\ callbacks t = [] /\ recreations t = [] /\
    requests t = [].
Proof.
  unfold bind, log, ret, raise.
  destruct (isinstance_TimeoutError rt e); eexists; repeat split.
Qed.

Lemma poll_body_effects st w r w' tr :
  poll_body rt self thread_id callback st w = (r, w', tr) ->
  ((recreations tr = [] /\
    forall st', r = Ok (Continue st') -> retry_count st' = retry_count st) \/
   (retry_count st < max_run_retries self /\
    recreations tr = [retry_count st + 1] /\
    forall st', r = Ok (Continue st') -> retry_count st' = retry_count st + 1)) /\
  match r with
  | Ok (Continue _) => callbacks tr = []
  | Ok (Return v) =>
      v <> PyNone /\
      callbacks tr = match callback with None => [] | Some _ => [(v, None)] end
  | Raise e => callbacks tr = [] \/ exists v, callbacks tr = [(v, Some e)]
  end.
Proof.
  intros H.
  unfold poll_body, bind, try_except, log, ret, raise, loop_time, asyncio_sleep,
    await_callback in H.
  crunch H.
  all: inversion H; subst; clear H.
  all: observe; quiet.
  all: split;
    [ first
        [ left; split; [reflexivity | intros ? [=]; subst; reflexivity]
        | right; split;
          [ apply Z.ltb_lt; assumption
          | split; [reflexivity | intros ? [=]; subst; reflexivity] ] ]
    | first
        [ reflexivity
        | left; reflexivity
        | right; eexists; reflexivity
        | split; [discriminate | reflexivity] ] ].
Qed.

Lemma iteration_effects st w r w' tr :
  iteration rt self thread_id callback st w = (r, w', tr) ->
  ((recreations tr = [] /\
    forall st', r = Ok (Continue st') -> retry_count st' = retry_count st) \/
   (retry_count st < max_run_retries self /\
    recreations tr = [retry_count st + 1] /\
    forall st', r = Ok (Continue st') -> retry_count st' = retry_count st + 1)) /\
  match r with
  | Ok (Continue _) => callbacks tr = []
  | Ok (Return v) =>
      v <> PyNone /\
      callbacks tr = match callback with None => [] | Some _ => [(v, None)] end
  | Raise e => callbacks tr = [] \/ exists v, callbacks tr = [(v, Some e)]
  end.
Proof.
  intros H. apply try_except_inv in H.
  destruct H as [(a & Hb & ->) | (e & w1 & t1 & t2 & Hb & Hh & ->)].
  - exact (poll_body_effects _ _ _ _ _ Hb).
  - destruct (iteration_handler e w1) as (t & Ht & _ & Hc & Hr & _).
    rewrite Ht in Hh. injection Hh as <- <- <-.
    apply poll_body_effects in Hb. observe. rewrite Hc, Hr, !app_nil_r.
    destruct Hb as [[(Hrec & _) | (Hlt & Hrec & _)] Hcb]; (split; [| exact Hcb]).
    + left. split; [exact Hrec | discriminate].
    + right. split; [exact Hlt | split; [exact Hrec | discriminate]].
Qed.

Lemma poll_loop_S fuel st w :
  poll_loop rt self (S fuel) thread_id callback st w =
  if run_status_check rt w then
    match iteration rt self thread_id callback st w with
    | (Ok (Continue st'), w1, t1) =>
        let '(r, w2, t2) := poll_loop rt self fuel thread_id callback st' w1 in
        (r, w2, t1 ++ t2)
    | (Ok (Return v), w1, t1) => (Ok (Finished v), w1, t1)
    | (Raise e, w1, t1) => (Raise e, w1, t1)
    end
  else (Ok (Finished PyNone), w, []).
Proof.
  cbn [poll_loop]. destruct (run_status_check rt w); [| reflexivity].
  unfold bind.
  destruct (iteration rt self thread_id callback st w) as [[[[st'|v]|e] w1] t1];
    try reflexivity.
  unfold ret. now rewrite app_nil_r.
Qed.

Lemma check_run_status_eq fuel run_id0 w :
  _check_run_status rt self fuel thread_id run_id0 callback w =
  match poll_loop rt self fuel thread_id callback
          {| run_id := run_id0; start_time := time rt w; retry_count := 0 |} w with
  | (Ok p, w1, t1) => (Ok p, w1, t1)
  | (Raise e, w1, t1) => (Raise e, w1, t1 ++ [EvLog Error (LogFinalError e)])
  end.
Proof.
  unfold _check_run_status, bind, loop_time, try_except, log, raise. cbn.
  destruct (poll_loop _ _ _ _ _ _ _) as [[[p|e] w1] t1]; reflexivity.
Qed.

Lemma numbering_step (rc : Z) (n : nat) :
  rc + 1 :: map (fun i => rc + 1 + 1 + Z.of_nat i) (seq 0 n) =
  map (fun i => rc + 1 + Z.of_nat i) (seq 0 (S n)).
Proof.
  cbn [seq map]. rewrite <- seq_shift, map_map. f_equal.
  - cbn. lia.
  - apply map_ext. intros i. lia.
Qed.

Lemma poll_loop_effects fuel :
  forall st w r w' tr,
    poll_loop rt self fuel thread_id callback st w = (r, w', tr) ->
    (exists n,
        recreations tr = map (fun i => retry_count st + 1 + Z.of_nat i) (seq 0 n) /\
        (n = 0%nat \/ retry_count st + Z.of_nat n <= max_run_retries self)) /\
    match r with
    | Ok (StillPolling _) => callbacks tr = []
    | Ok (Finished PyNone) => callbacks tr = [] /\ run_status_check rt w' = false
    | Ok (Finished v) =>
        callbacks tr = match callback with None => [] | Some _ => [(v, None)] end
    | Raise e => callbacks tr = [] \/ exists v, callbacks tr = [(v, Some e)]
    end.
Proof.
  induction fuel as [|fuel IH]; intros st w r w' tr Hrun.
  - injection Hrun as <- <- <-. split; [exists 0%nat; split; [reflexivity | now left] | reflexivity].
  - rewrite poll_loop_S in Hrun.
    destruct (run_status_check rt w) eqn:Hflag.
    2:{ injection Hrun as <- <- <-.
        split; [exists 0%nat; split; [reflexivity | now left] | now split]. }
    destruct (iteration rt self thread_id callback st w) as [[c w1] t1] eqn:Hit.
    apply iteration_effects in Hit. destruct Hit as [Hrec Hcb].
    destruct c as [[st'|v]|e].
    + destruct (poll_loop rt self fuel thread_id callback st' w1) as [[r2 w2] t2] eqn:Hrest.
      injection Hrun as <- <- <-.
      destruct (IH _ _ _ _ _ Hrest) as [(n & Hn & Hbound) Hcb2].
      split.
      * observe.
        destruct Hrec as [(-> & Hsame) | (Hlt & -> & Hnext)].
        -- specialize (Hsame _ eq_refl). rewrite Hsame in Hn, Hbound.
           exists n. split; [exact Hn | exact Hbound].
        -- specialize (Hnext _ eq_refl). rewrite Hnext in Hn, Hbound.
           exists (S n). rewrite Hn. split; [apply numbering_step | right; lia].
      * observe. rewrite Hcb. exact Hcb2.
    + injection Hrun as <- <- <-. split.
      * destruct Hrec as [(-> & _) | (Hlt & -> & _)].
        -- exists 0%nat. split; [reflexivity | now left].
        -- exists 1%nat. split; [cbn; f_equal; lia | right; lia].
      * destruct Hcb as [Hv Hcb]. destruct v; [contradiction | exact Hcb].
    + injection Hrun as <- <- <-. split; [| exact Hcb].
      destruct Hrec as [(-> & _) | (Hlt & -> & _)].
      * exists 0%nat. split; [reflexivity | now left].
      * exists 1%nat. split; [cbn; f_equal; lia | right; lia].
Qed.

(** *** Single passes, forwards *)

Ltac run_body :=
  unfold iteration, poll_body, try_except, bind, log, ret, raise, loop_time,
    asyncio_sleep, await_callback.

Lemma iteration_waits st w r w1 t1 :
  make_api_request_async rt self (RunsRetrieve thread_id (run_id st)) w
    = (Ok (PyRun r), w1, t1) ->
  py_in (Run.status r) ["failed"; "expired"; "cancelled"] = false ->
  py_in (Run.status r) ["queued"; "in_progress"] = true ->
  Qgtb (time rt w1 - start_time st) (run_timeout self) = false ->
  iteration rt self thread_id callback st w
    = (Ok (Continue st), sleep rt 1 w1, t1 ++ [EvSleep PollInterval 1]).
Proof.
  intros Hget Hrec Hwait Hclock. run_body.
  rewrite Hget. cbn. rewrite Hrec, Hwait. cbn. rewrite Hclock. reflexivity.
Qed.

Lemma iteration_returns st w r w1 t1 cb w2 :
  callback = Some cb ->
  make_api_request_async rt self (RunsRetrieve thread_id (run_id st)) w
    = (Ok (PyRun r), w1, t1) ->
  py_in (Run.status r) ["failed"; "expired"; "cancelled"] = false ->
  py_in (Run.status r) ["queued"; "in_progress"] = false ->
  cb (PyRun r) w1 = (None, w2) ->
  iteration rt self thread_id callback st w
    = (Ok (Return (PyRun r)), w2, t1 ++ [EvCallback (PyRun r) None]).
Proof.
  intros -> Hget Hrec Hwait Hcb. run_body.
  rewrite Hget. cbn. rewrite Hrec, Hwait. cbn. rewrite Hcb. reflexivity.
Qed.


Lemma iteration_status_recreates st w r w1 t1 r' w2 t2 :
  make_api_request_async rt self (RunsRetrieve thread_id (run_id st)) w
    = (Ok (PyRun r), w1, t1) ->
  py_in (Run.status r) ["failed"; "expired"; "cancelled"] = true ->
  retry_count st < max_run_retries self ->
  make_api_request_async rt self (RunsCreate thread_id (Run.assistant_id r)) w1
    = (Ok (PyRun r'), w2, t2) ->
  iteration rt self thread_id callback st w
    = (Ok (Continue {| run_id := Run.id r';
                       start_time := start_time st;
                       retry_count := retry_count st + 1 |}),
       w2,
       t1 ++ EvLog Error (LogRunFailed (Run.status r))
          :: EvLog Info (LogRetryingRun (retry_count st + 1) (max_run_retries self))
          :: t2).
Proof.
  intros Hget Hrec Hlt Hnew. apply Z.ltb_lt in Hlt. run_body.
  rewrite Hget. cbn. rewrite Hrec. cbn. rewrite Hlt. cbn. rewrite Hnew. cbn.
  now rewrite app_nil_r.
Qed.

Lemma iteration_status_exhausted st w r w1 t1 :
  make_api_request_async rt self (RunsRetrieve thread_id (run_id st)) w
    = (Ok (PyRun r), w1, t1) ->
  py_in (Run.status r) ["failed"; "expired"; "cancelled"] = true ->
  max_run_retries self <= retry_count st ->
  iteration rt self thread_id callback st w
    = (Raise (Exception (MsgRunFailedAfter (max_run_retries self))), w1,
       (t1 ++ [EvLog Error (LogRunFailed (Run.status r))]) ++
       [EvLog Error
          (LogErrorChecking (Exception (MsgRunFailedAfter (max_run_retries self))))]).
Proof.
  intros Hget Hrec Hge. apply Z.ltb_ge in Hge. run_body.
  rewrite Hget. cbn. rewrite Hrec. cbn. rewrite Hge. reflexivity.
Qed.

Lemma iteration_timeout_exhausted st w r w1 t1 :
  make_api_request_async rt self (RunsRetrieve thread_id (run_id st)) w
    = (Ok (PyRun r), w1, t1) ->
  py_in (Run.status r) ["failed"; "expired"; "cancelled"] = false ->
  py_in (Run.status r) ["queued"; "in_progress"] = true ->
  Qgtb (time rt w1 - start_time st) (run_timeout self) = true ->
  max_run_retries self <= retry_count st ->
  iteration rt self thread_id callback st w
    = (Raise (TimeoutError
                (MsgRunTimedOutAfter (run_timeout self) (max_run_retries self))),
       w1, t1).
Proof.
  intros Hget Hrec Hwait Hclock Hge. apply Z.ltb_ge in Hge. run_body.
  rewrite Hget. cbn. rewrite Hrec, Hwait. cbn. rewrite Hclock, Hge. cbn.
  now rewrite !app_nil_r.
Qed.

Lemma iteration_timeout_recreates st w r w1 t1 cancelled w2 t2 res w3 t3 :
  make_api_request_async rt self (RunsRetrieve thread_id (run_id st)) w
    = (Ok (PyRun r), w1, t1) ->
  py_in (Run.status r) ["failed"; "expired"; "cancelled"] = false ->
  py_in (Run.status r) ["queued"; "in_progress"] = true ->
  Qgtb (time rt w1 - start_time st) (run_timeout self) = true ->
  retry_count st < max_run_retries self ->
  make_api_request_async rt self (RunsCancel thread_id (run_id st)) w1
    = (cancelled, w2, t2) ->
  make_api_request_async rt self (RunsCreate thread_id (Run.assistant_id r)) w2
    = (res, w3, t3) ->
  exists tr,
    iteration rt self thread_id callback st w = (after_recreate rt st res w3, w3, tr) /\
    requests tr = requests t1 ++ requests t2 ++ requests t3 /\
    recreations tr = recreations t1 ++ [retry_count st + 1].
Proof.
  intros Hget Hrec Hwait Hclock Hlt Hcancel Hnew. apply Z.ltb_lt in Hlt.
  destruct (make_api_request_async_quiet _ _ _ _ _ _ _ Hcancel) as (_ & _ & Hq2).
  destruct (make_api_request_async_quiet _ _ _ _ _ _ _ Hnew) as (_ & _ & Hq3).
  run_body.
  rewrite Hget. cbn. rewrite Hrec, Hwait. cbn. rewrite Hclock, Hlt. cbn.
  rewrite Hcancel. cbn.
  destruct cancelled as [v|e]; cbn; rewrite Hnew; cbn;
    destruct res as [[|r']|e']; cbn;
    try destruct (isinstance_TimeoutError rt e');
    eexists; (split; [reflexivity |]); observe; rewrite ?Hq2, ?Hq3, ?app_nil_r;
    split; reflexivity.
Qed.

End Polling.

(** ** Properties of the request executor *)

Lemma failed_with_weaken (p : exn -> bool) (l : list attempt) :
  forallb (failed_with p) l = true ->
  forallb (failed_with (fun _ => true)) l = true.
Proof.
  induction l as [|[v|e] l IH]; cbn; intros H; try discriminate; [reflexivity |].
  apply andb_true_iff in H. apply IH, H.
Qed.

Lemma executor_all_fail_last
    (rt : Runtime) (self : APIClient) (req : request) (w : World rt)
    (r : result pyval) (w' : World rt) (tr : trace) :
  0 < max_retries self ->
  make_api_request_async rt self req w = (r, w', tr) ->
  forallb (failed_with (fun _ => true)) (invocations tr) = true ->
  exists tr1 t e tr2,
    tr = tr1 ++ EvRequest req t (Failed e) :: tr2 /\
    invocations tr2 = [] /\
    r = Raise (final_error rt self e).
Proof.
  intros Hpos Hrun Hfail. unfold make_api_request_async in Hrun.
  destruct (Z.to_nat (max_retries self)) as [|k] eqn:Hk; [lia |].
  destruct (attempts_all_fail rt self req k 0 w r w' tr ltac:(lia) Hrun Hfail)
    as (_ & _ & tr1 & e & tr2 & Htr & Hi & _ & Hr).
  now exists tr1, (attempt_timeout self (max_retries self - 1)), e, tr2.
Qed.

(** C1. With [max_retries = N > 0], a call whose every attempt fails
    invokes the operation exactly [N] times and sleeps a backoff exactly
    [N - 1] times; nothing is slept or invoked after the last failing
    attempt, whose error decides what is raised. With [N = 1] there is a
    single attempt and no backoff sleep at all. *)
Theorem executor_exhaustion_counts
    (rt : Runtime) (self : APIClient) (req : request) (w : World rt)
    (r : result pyval) (w' : World rt) (tr : trace) :
  0 < max_retries self ->
  make_api_request_async rt self req w = (r, w', tr) ->
  forallb (failed_with (fun _ => true)) (invocations tr) = true ->
  List.length (invocations tr) = Z.to_nat (max_retries self) /\
  List.length (sleeps Backoff tr) = Z.to_nat (max_retries self - 1) /\
  (exists tr1 t e tr2,
      tr = tr1 ++ EvRequest req t (Failed e) :: tr2 /\
      invocations tr2 = [] /\ sleeps Backoff tr2 = [] /\
      r = Raise (final_error rt self e)) /\
  (max_retries self = 1 ->
   List.length (invocations tr) = 1%nat /\ sleeps Backoff tr = []).
Proof.
  intros Hpos Hrun Hfail. unfold make_api_request_async in Hrun.
  destruct (Z.to_nat (max_retries self)) as [|k] eqn:Hk; [lia |].
  destruct (attempts_all_fail rt self req k 0 w r w' tr ltac:(lia) Hrun Hfail)
    as (Hn & Hs & tr1 & e & tr2 & Htr & Hi & Hb & Hr).
  split; [exact Hn |]. split; [rewrite Hs; lia |].
  split; [now exists tr1, (attempt_timeout self (max_retries self - 1)), e, tr2 |].
  intros Hone. rewrite Hone in Hk. injection Hk as <-.
  split; [exact Hn |]. now destruct (sleeps Backoff tr).
Qed.

Lemma executor_exhaustion_counts_witness :
  let out := make_api_request_async (Sim.runtime true) APIClient_init
               Sim.retrieve Sim.refused in
  List.length (invocations (snd out)) = 2%nat /\
  List.length (sleeps Backoff (snd out)) = 1%nat /\
  fst (fst out) = Raise (RemoteError "RateLimitError" "Too many requests.").
Proof.
  destruct (executor_exhaustion_counts (Sim.runtime true) APIClient_init
              Sim.retrieve Sim.refused
              (Raise (RemoteError "RateLimitError" "Too many requests."))
              (Sim.mkWorld [] 3 true)
              (snd (make_api_request_async (Sim.runtime true) APIClient_init
                      Sim.retrieve Sim.refused)))
    as (Hn & Hs & _).
  - reflexivity.
  - vm_compute. reflexivity.
  - vm_compute. reflexivity.
  - cbv zeta. split; [exact Hn | split; [exact Hs | vm_compute; reflexivity]].
Defined.

(** C9. With [max_retries = 0] the executor makes no attempt: the
    operation is never invoked, nothing is slept or logged, nothing is
    raised, and the call evaluates to [None]. *)
Theorem zero_retries_returns_none
    (rt : Runtime) (self : APIClient) (req : request) (w : World rt) :
  max_retries self = 0 ->
  make_api_request_async rt self req w = (Ok PyNone, w, []).
Proof. intros H. unfold make_api_request_async. rewrite H. reflexivity. Qed.

Lemma zero_retries_returns_none_witness :
  make_api_request_async (Sim.runtime true)
    {| max_retries := 0; base_timeout := 30; max_run_retries := 2; run_timeout := 30 |}
    Sim.retrieve Sim.refused
  = (Ok PyNone, Sim.refused, []).
Proof. apply zero_retries_returns_none. reflexivity. Defined.

(** C2. Within one call of the executor, deadlines and backoff sleeps
    alternate; the deadline of attempt [i] (counted from 0) is
    [base_timeout * (i + 1)], the sleep between attempt [i] and attempt
    [i + 1] lasts [1 * (i + 1)] seconds, and with a positive
    [base_timeout] a later attempt has a strictly longer deadline. *)
Theorem attempt_deadlines_and_backoff
    (rt : Runtime) (self : APIClient) (req : request) (w : World rt)
    (r : result pyval) (w' : World rt) (tr : trace) :
  make_api_request_async rt self req w = (r, w', tr) ->
  (forall i x,
      nth_error (schedule tr) (2 * i) = Some x ->
      x = inl (base_timeout self * inject_Z (Z.of_nat i + 1))%Q) /\
  (forall i x,
      nth_error (schedule tr) (2 * i + 1) = Some x ->
      x = inr (1 * (Z.of_nat i + 1))) /\
  ((0 < base_timeout self)%Q ->
   forall i j ti tj,
     (i < j)%nat ->
     nth_error (schedule tr) (2 * i) = Some (inl ti) ->
     nth_error (schedule tr) (2 * j) = Some (inl tj) ->
     (ti < tj)%Q).
Proof.
  intros Hrun. unfold make_api_request_async in Hrun.
  pose proof (attempts_schedule rt self req _ _ _ _ _ _ Hrun) as Hs.
  assert (Hdl : forall i x, nth_error (schedule tr) (2 * i) = Some x ->
                  x = inl (base_timeout self * inject_Z (Z.of_nat i + 1))%Q).
  { intros i x Hx. apply (proj1 (Hs i x)) in Hx. exact Hx. }
  split; [exact Hdl |]. split.
  - intros i x Hx. apply (proj2 (Hs i x)) in Hx. exact Hx.
  - intros Hbase i j ti tj Hij Hi Hj.
    apply Hdl in Hi. apply Hdl in Hj.
    injection Hi as ->. injection Hj as ->.
    apply Qmult_lt_l; [exact Hbase |].
    rewrite <- Zlt_Qlt. lia.
Qed.

Lemma attempt_deadlines_and_backoff_witness :
  let out := make_api_request_async (Sim.runtime true) APIClient_init
               Sim.retrieve Sim.slow_then_fine in
  schedule (snd out) = [inl 30%Q; inr 1; inl 60%Q] /\
  (30 < 60)%Q.
Proof.
  destruct (attempt_deadlines_and_backoff (Sim.runtime true) APIClient_init
              Sim.retrieve Sim.slow_then_fine
              (fst (fst (make_api_request_async (Sim.runtime true) APIClient_init
                           Sim.retrieve Sim.slow_then_fine)))
              (snd (fst (make_api_request_async (Sim.runtime true) APIClient_init
                           Sim.retrieve Sim.slow_then_fine)))
              (snd (make_api_request_async (Sim.runtime true) APIClient_init
                      Sim.retrieve Sim.slow_then_fine)))
    as (_ & _ & Hlt).
  - vm_compute. reflexivity.
  - cbv zeta. split; [vm_compute; reflexivity |].
    apply (Hlt eq_refl 0%nat 1%nat); [repeat constructor | reflexivity | reflexivity].
Defined.

(** C3. When every attempt fails with an error that is not a timeout,
    the executor ends by raising the very error of the last attempt; when
    every attempt times out, it raises a [TimeoutError] of its own. *)
Theorem final_error_preserved
    (rt : Runtime) (self : APIClient) (req : request) (w : World rt)
    (r : result pyval) (w' : World rt) (tr : trace) :
  0 < max_retries self ->
  make_api_request_async rt self req w = (r, w', tr) ->
  (forallb (failed_with (fun e => negb (isinstance_asyncio_TimeoutError rt e)))
     (invocations tr) = true ->
   exists tr1 t e tr2,
     tr = tr1 ++ EvRequest req t (Failed e) :: tr2 /\
     invocations tr2 = [] /\
     r = Raise e) /\
  (forallb (failed_with (isinstance_asyncio_TimeoutError rt)) (invocations tr) = true ->
   r = Raise (TimeoutError (MsgRequestFailedAfter (max_retries self)))).
Proof.
  intros Hpos Hrun.
  split; intros Hall;
    destruct (executor_all_fail_last rt self req w r w' tr Hpos Hrun
                (failed_with_weaken _ _ Hall))
      as (tr1 & t & e & tr2 & Htr & Hi & Hr);
    rewrite Htr in Hall; observe_in Hall;
    rewrite forallb_app in Hall; apply andb_true_iff in Hall;
    destruct Hall as [_ Hall]; cbn in Hall;
    apply andb_true_iff in Hall; destruct Hall as [He _];
    unfold final_error in Hr.
  - apply negb_true_iff in He. rewrite He in Hr. now exists tr1, t, e, tr2.
  - now rewrite He in Hr.
Qed.

Lemma final_error_preserved_witness :
  let refused := make_api_request_async (Sim.runtime false) APIClient_init
                   Sim.retrieve Sim.refused in
  let slow := make_api_request_async (Sim.runtime false) APIClient_init
                Sim.retrieve Sim.too_slow in
  (exists tr1 t e tr2,
      snd refused = tr1 ++ EvRequest Sim.retrieve t (Failed e) :: tr2 /\
      invocations tr2 = [] /\
      fst (fst refused) = Raise e) /\
  fst (fst slow) = Raise (TimeoutError (MsgRequestFailedAfter 2)).
Proof.
  cbv zeta. split.
  - refine (proj1 (final_error_preserved (Sim.runtime false) APIClient_init
                     Sim.retrieve Sim.refused _ _ _ _ _) _).
    + reflexivity.
    + vm_compute. reflexivity.
    + vm_compute. reflexivity.
  - refine (proj2 (final_error_preserved (Sim.runtime false) APIClient_init
                     Sim.retrieve Sim.too_slow _ _ _ _ _) _).
    + reflexivity.
    + vm_compute. reflexivity.
    + vm_compute. reflexivity.
Defined.

(** ** Properties of the polling loop *)


Lemma check_run_status_inv
    (rt : Runtime) (self : APIClient) (thread_id run_id0 : string)
    (callback : option (callback_t rt)) (fuel : nat) (w : World rt)
    (r : result polling) (w' : World rt) (tr : trace) :
  _check_run_status rt self fuel thread_id run_id0 callback w = (r, w', tr) ->
  exists tr0,
    poll_loop rt self fuel thread_id callback
      {| run_id := run_id0; start_time := time rt w; retry_count := 0 |} w
      = (r, w', tr0) /\
    callbacks tr = callbacks tr0 /\ recreations tr = recreations tr0.
Proof.
  rewrite check_run_status_eq.
  destruct (poll_loop _ _ _ _ _ _ _) as [[[p|e] w1] t1]; intros [= <- <- <-].
  - now exists t1.
  - exists t1. observe. now rewrite !app_nil_r.
Qed.

(** C6. A session whose status reads come back queued, then in_progress
    (both within [run_timeout] of the start), then completed sleeps the
    poll interval exactly twice, calls the callback exactly once, with
    the completed run, and returns that run. And whenever a session ends
    by raising, the callback either was not called at all or is the one
    call that raised this very error: no failure of the polling itself
    comes after a callback invocation. *)
Theorem queued_in_progress_completed
    (rt : Runtime) (self : APIClient) (thread_id run_id0 : string)
    (cb : callback_t rt) (fuel : nat)
    (w0 : World rt) (r1 : Run.t) (w1 : World rt) (t1 : trace)
    (r2 : Run.t) (w2 : World rt) (t2 : trace)
    (r3 : Run.t) (w3 : World rt) (t3 : trace) (w4 : World rt) :
  run_status_check rt w0 = true ->
  make_api_request_async rt self (RunsRetrieve thread_id run_id0) w0
    = (Ok (PyRun r1), w1, t1) ->
  Run.status r1 = "queued" ->
  Qgtb (time rt w1 - time rt w0) (run_timeout self) = false ->
  run_status_check rt (sleep rt 1 w1) = true ->
  make_api_request_async rt self (RunsRetrieve thread_id run_id0) (sleep rt 1 w1)
    = (Ok (PyRun r2), w2, t2) ->
  Run.status r2 = "in_progress" ->
  Qgtb (time rt w2 - time rt w0) (run_timeout self) = false ->
  run_status_check rt (sleep rt 1 w2) = true ->
  make_api_request_async rt self (RunsRetrieve thread_id run_id0) (sleep rt 1 w2)
    = (Ok (PyRun r3), w3, t3) ->
  Run.status r3 = "completed" ->
  cb (PyRun r3) w3 = (None, w4) ->
  (exists tr,
      _check_run_status rt self (3 + fuel) thread_id run_id0 (Some cb) w0
        = (Ok (Finished (PyRun r3)), w4, tr) /\
      sleeps PollInterval tr = [1; 1] /\
      callbacks tr = [(PyRun r3, None)]) /\
  (forall fuel' run_id' callback w e w' tr,
      _check_run_status rt self fuel' thread_id run_id' callback w = (Raise e, w', tr) ->
      callbacks tr = [] \/ exists v, callbacks tr = [(v, Some e)]).
Proof.
  intros Hf0 Hget1 Hs1 Hc1 Hf1 Hget2 Hs2 Hc2 Hf2 Hget3 Hs3 Hcb.
  split.
  - destruct (make_api_request_async_quiet _ _ _ _ _ _ _ Hget1) as (Hq1 & Hk1 & _).
    destruct (make_api_request_async_quiet _ _ _ _ _ _ _ Hget2) as (Hq2 & Hk2 & _).
    destruct (make_api_request_async_quiet _ _ _ _ _ _ _ Hget3) as (Hq3 & Hk3 & _).
    set (st := {| run_id := run_id0; start_time := time rt w0; retry_count := 0 |}).
    assert (H1 : iteration rt self thread_id (Some cb) st w0
                 = (Ok (Continue st), sleep rt 1 w1, t1 ++ [EvSleep PollInterval 1])).
    { apply iteration_waits with (r := r1); try assumption; rewrite Hs1; reflexivity. }
    assert (H2 : iteration rt self thread_id (Some cb) st (sleep rt 1 w1)
                 = (Ok (Continue st), sleep rt 1 w2, t2 ++ [EvSleep PollInterval 1])).
    { apply iteration_waits with (r := r2); try assumption; rewrite Hs2; reflexivity. }
    assert (H3 : iteration rt self thread_id (Some cb) st (sleep rt 1 w2)
                 = (Ok (Return (PyRun r3)), w4, t3 ++ [EvCallback (PyRun r3) None])).
    { apply iteration_returns with (cb := cb) (w1 := w3); try assumption;
        [reflexivity | rewrite Hs3; reflexivity | rewrite Hs3; reflexivity]. }
    eexists. split.
    + rewrite check_run_status_eq. fold st.
      change (3 + fuel)%nat with (S (S (S fuel))).
      rewrite poll_loop_S, Hf0, H1, poll_loop_S, Hf1, H2, poll_loop_S, Hf2, H3.
      reflexivity.
    + observe. rewrite Hq1, Hq2, Hq3, Hk1, Hk2, Hk3. split; reflexivity.
  - intros fuel' run_id' callback w e w' tr Hrun.
    apply check_run_status_inv in Hrun.
    destruct Hrun as (tr0 & Hloop & -> & _).
    apply poll_loop_effects in Hloop. exact (proj2 Hloop).
Qed.

Lemma queued_in_progress_completed_witness :
  exists tr,
    _check_run_status (Sim.runtime true) APIClient_init 3 Sim.thread "run_1"
      (Some Sim.notify) Sim.completes
    = (Ok (Finished (Sim.run_ "run_1" "completed")),
       Sim.mkWorld [] 5 true, tr) /\
    sleeps PollInterval tr = [1; 1] /\
    callbacks tr = [(Sim.run_ "run_1" "completed", None)].
Proof.
  refine (proj1 (queued_in_progress_completed (Sim.runtime true) APIClient_init
                   Sim.thread "run_1" Sim.notify 0 Sim.completes
                   (Run.make "run_1" "asst_1" "queued") _ _
                   (Run.make "run_1" "asst_1" "in_progress") _ _
                   (Run.make "run_1" "asst_1" "completed") _ _ _
                   _ _ _ _ _ _ _ _ _ _ _ _)).
  - reflexivity.
  - vm_compute. reflexivity.
  - reflexivity.
  - vm_compute. reflexivity.
  - reflexivity.
  - vm_compute. reflexivity.
  - reflexivity.
  - vm_compute. reflexivity.
  - reflexivity.
  - vm_compute. reflexivity.
  - reflexivity.
  - reflexivity.
Defined.








(** C8. On the timeout path the cancel call may raise any error: the pass
    goes on to recreate the run, and what the pass yields is decided by
    the recreation alone, never by the error of the cancel call. *)
Theorem cancel_failure_swallowed
    (rt : Runtime) (self : APIClient) (thread_id : string)
    (callback : option (callback_t rt)) (st : poll_state)
    (w : World rt) (r : Run.t) (w1 : World rt) (t1 : trace)
    (e : exn) (w2 : World rt) (t2 : trace)
    (res : result pyval) (w3 : World rt) (t3 : trace) :
  make_api_request_async rt self (RunsRetrieve thread_id (run_id st)) w
    = (Ok (PyRun r), w1, t1) ->
  py_in (Run.status r) ["failed"; "expired"; "cancelled"] = false ->
  py_in (Run.status r) ["queued"; "in_progress"] = true ->
  Qgtb (time rt w1 - start_time st) (run_timeout self) = true ->
  retry_count st < max_run_retries self ->
  make_api_request_async rt self (RunsCancel thread_id (run_id st)) w1
    = (Raise e, w2, t2) ->
  make_api_request_async rt self (RunsCreate thread_id (Run.assistant_id r)) w2
    = (res, w3, t3) ->
  exists tr,
    iteration rt self thread_id callback st w
      = (match res with
         | Ok (PyRun r') =>
             Ok (Continue {| run_id := Run.id r';
                             start_time := time rt w3;
                             retry_count := retry_count st + 1 |})
         | Ok PyNone => Raise (AttributeError "id")
         | Raise e' => Raise e'
         end, w3, tr) /\
    requests tr = requests t1 ++ requests t2 ++ requests t3.
Proof.
  intros Hget Hrec Hwait Hclock Hlt Hcancel Hnew.
  destruct (iteration_timeout_recreates rt self thread_id callback st w r w1 t1
              (Raise e) w2 t2 res w3 t3 Hget Hrec Hwait Hclock Hlt Hcancel Hnew)
    as (tr & Hit & Hreq & _).
  exists tr. split; [exact Hit | exact Hreq].
Qed.

Lemma cancel_failure_swallowed_witness :
  exists tr,
    iteration (Sim.runtime true) APIClient_init Sim.thread None
      {| run_id := "run_1"; start_time := 0; retry_count := 0 |} Sim.stuck
    = (Ok (Continue {| run_id := "run_2"; start_time := 36; retry_count := 1 |}),
       Sim.mkWorld [] 36 true, tr) /\
    requests tr =
      [RunsRetrieve Sim.thread "run_1"; RunsRetrieve Sim.thread "run_1";
       RunsCancel Sim.thread "run_1"; RunsCancel Sim.thread "run_1";
       RunsCreate Sim.thread "asst_1"].
Proof.
  destruct (cancel_failure_swallowed (Sim.runtime true) APIClient_init Sim.thread None
              {| run_id := "run_1"; start_time := 0; retry_count := 0 |} Sim.stuck
              (Run.make "run_1" "asst_1" "in_progress")
              (Sim.mkWorld
                 [Sim.fails (RemoteError "BadRequestError" "Cannot cancel run.") 1;
                  Sim.fails (RemoteError "BadRequestError" "Cannot cancel run.") 1;
                  Sim.answers (Sim.run_ "run_2" "queued") 1] 32 true)
              (snd (make_api_request_async (Sim.runtime true) APIClient_init
                      (RunsRetrieve Sim.thread "run_1") Sim.stuck))
              (RemoteError "BadRequestError" "Cannot cancel run.")
              (Sim.mkWorld [Sim.answers (Sim.run_ "run_2" "queued") 1] 35 true)
              (snd (make_api_request_async (Sim.runtime true) APIClient_init
                      (RunsCancel Sim.thread "run_1")
                      (Sim.mkWorld
                         [Sim.fails (RemoteError "BadRequestError" "Cannot cancel run.") 1;
                          Sim.fails (RemoteError "BadRequestError" "Cannot cancel run.") 1;
                          Sim.answers (Sim.run_ "run_2" "queued") 1] 32 true)))
              (Ok (Sim.run_ "run_2" "queued"))
              (Sim.mkWorld [] 36 true)
              (snd (make_api_request_async (Sim.runtime true) APIClient_init
                      (RunsCreate Sim.thread "asst_1")
                      (Sim.mkWorld [Sim.answers (Sim.run_ "run_2" "queued") 1] 35 true))))
    as (tr & Hit & Hreq).
  - vm_compute. reflexivity.
  - reflexivity.
  - reflexivity.
  - reflexivity.
  - reflexivity.
  - vm_compute. reflexivity.
  - vm_compute. reflexivity.
  - exists tr. split; [exact Hit | rewrite Hreq; vm_compute; reflexivity].
Defined.

(** C5. Both kinds of recreation draw on one counter: the recreations of
    a session, whichever trigger caused each, are numbered 1, 2, ..., n
    by the value just given to [retry_count], and [n] never exceeds
    [max_run_retries]. With the budget used up, a recoverable status
    makes the loop raise [Exception("Run failed after ...")] and an
    elapsed [run_timeout] makes it raise [TimeoutError("Run timed out
    after ...")], in both cases without another recreation. *)
Theorem shared_retry_budget
    (rt : Runtime) (self : APIClient) (thread_id : string)
    (callback : option (callback_t rt)) :
  0 <= max_run_retries self ->
  (forall fuel run_id0 w r w' tr,
      _check_run_status rt self fuel thread_id run_id0 callback w = (r, w', tr) ->
      exists n,
        recreations tr = map (fun i => Z.of_nat i + 1) (seq 0 n) /\
        Z.of_nat n <= max_run_retries self) /\
  (forall fuel st w r0 w1 t1,
      max_run_retries self <= retry_count st ->
      run_status_check rt w = true ->
      make_api_request_async rt self (RunsRetrieve thread_id (run_id st)) w
        = (Ok (PyRun r0), w1, t1) ->
      py_in (Run.status r0) ["failed"; "expired"; "cancelled"] = true ->
      exists tr,
        poll_loop rt self (S fuel) thread_id callback st w
          = (Raise (Exception (MsgRunFailedAfter (max_run_retries self))), w1, tr) /\
        recreations tr = []) /\
  (forall fuel st w r0 w1 t1,
      max_run_retries self <= retry_count st ->
      run_status_check rt w = true ->
      make_api_request_async rt self (RunsRetrieve thread_id (run_id st)) w
        = (Ok (PyRun r0), w1, t1) ->
      py_in (Run.status r0) ["failed"; "expired"; "cancelled"] = false ->
      py_in (Run.status r0) ["queued"; "in_progress"] = true ->
      Qgtb (time rt w1 - start_time st) (run_timeout self) = true ->
      exists tr,
        poll_loop rt self (S fuel) thread_id callback st w
          = (Raise (TimeoutError
                      (MsgRunTimedOutAfter (run_timeout self) (max_run_retries self))),
             w1, tr) /\
        recreations tr = []).
Proof.
  intros Hmax. split; [| split].
  - intros fuel run_id0 w r w' tr Hrun.
    apply check_run_status_inv in Hrun. destruct Hrun as (tr0 & Hloop & _ & ->).
    apply poll_loop_effects in Hloop.
    destruct Hloop as [(n & Hn & Hbound) _]. cbn [retry_count] in Hn, Hbound.
    exists n. split.
    + rewrite Hn. apply map_ext. intros i. lia.
    + destruct Hbound as [-> | Hbound]; lia.
  - intros fuel st w r0 w1 t1 Hout Hflag Hget Hrec.
    destruct (make_api_request_async_quiet _ _ _ _ _ _ _ Hget) as (_ & _ & Hq).
    eexists. split.
    + rewrite poll_loop_S, Hflag.
      rewrite (iteration_status_exhausted rt self thread_id callback st w r0 w1 t1
                 Hget Hrec Hout).
      reflexivity.
    + observe. now rewrite Hq.
  - intros fuel st w r0 w1 t1 Hout Hflag Hget Hrec Hwait Hclock.
    destruct (make_api_request_async_quiet _ _ _ _ _ _ _ Hget) as (_ & _ & Hq).
    eexists. split.
    + rewrite poll_loop_S, Hflag.
      rewrite (iteration_timeout_exhausted rt self thread_id callback st w r0 w1 t1
                 Hget Hrec Hwait Hclock Hout).
      reflexivity.
    + exact Hq.
Qed.

Lemma shared_retry_budget_witness :
  let out := _check_run_status (Sim.runtime true) APIClient_init 5 Sim.thread
               "run_1" None Sim.stale_timer in
  fst (fst out) = Raise (Exception (MsgRunFailedAfter 2)) /\
  recreations (snd out) = [1; 2] /\
  exists n,
    recreations (snd out) = map (fun i => Z.of_nat i + 1) (seq 0 n) /\
    Z.of_nat n <= 2.
Proof.
  cbv zeta. split; [vm_compute; reflexivity |]. split; [vm_compute; reflexivity |].
  refine (proj1 (shared_retry_budget (Sim.runtime true) APIClient_init Sim.thread
                   None _) 5%nat "run_1" Sim.stale_timer _ _ _ _).
  - discriminate.
  - vm_compute. reflexivity.
Defined.

(** C4. The timer is reset by a recreation on the timeout path only.
    After a recreation on the failed-status path the loop keeps the
    [start_time] taken when the session began, so the new run does not
    get a full [run_timeout]. In the scripted session below the first run fails at
    second 29 and its replacement exists from second 30; the pass leaves
    [start_time] at 0, so at second 32 the replacement, two seconds old,
    is found to have exceeded the 30 s [run_timeout] and is cancelled and
    recreated, which uses up the second and last recreation. Only this
    recreation moves [start_time] (to second 34). *)
Theorem status_recreation_keeps_stale_timer :
  let rt := Sim.runtime true in
  let first := iteration rt APIClient_init Sim.thread None
                 {| run_id := "run_1"; start_time := 0; retry_count := 0 |}
                 Sim.stale_timer in
  let second := iteration rt APIClient_init Sim.thread None
                  {| run_id := "run_2"; start_time := 0; retry_count := 1 |}
                  (snd (fst first)) in
  fst (fst first)
    = Ok (Continue {| run_id := "run_2"; start_time := 0; retry_count := 1 |}) /\
  requests (snd first)
    = [RunsRetrieve Sim.thread "run_1"; RunsCreate Sim.thread "asst_1"] /\
  time rt (snd (fst first)) = 30%Q /\
  fst (fst second)
    = Ok (Continue {| run_id := "run_3"; start_time := 34; retry_count := 2 |}) /\
  requests (snd second)
    = [RunsRetrieve Sim.thread "run_2"; RunsCancel Sim.thread "run_2";
       RunsCreate Sim.thread "asst_1"] /\
  recreations (snd first ++ snd second) = [1; 2].
Proof. vm_compute. repeat split. Qed.

(** * Further properties *)

Lemma deadlines_app (a b : trace) :
  deadlines (a ++ b) = deadlines a ++ deadlines b.
Proof. apply flat_map_app. Qed.

Lemma deadlines_nil : deadlines [] = [].
Proof. reflexivity. Qed.

Lemma deadlines_cons (ev : event) (tr : trace) :
  deadlines (ev :: tr) =
    match ev with EvRequest _ t _ => [t] | _ => [] end ++ deadlines tr.
Proof. reflexivity. Qed.

Lemma timeout_recreations_app (a b : trace) :
  timeout_recreations (a ++ b) = timeout_recreations a ++ timeout_recreations b.
Proof. apply flat_map_app. Qed.

Lemma timeout_recreations_nil : timeout_recreations [] = [].
Proof. reflexivity. Qed.

Lemma timeout_recreations_cons (ev : event) (tr : trace) :
  timeout_recreations (ev :: tr) =
    match ev with
    | EvLog _ (LogRunTimedOutRetrying n _) => [n]
    | _ => []
    end ++ timeout_recreations tr.
Proof. reflexivity. Qed.

#[local] Hint Rewrite deadlines_app deadlines_nil deadlines_cons
  timeout_recreations_app timeout_recreations_nil timeout_recreations_cons : observe.

Arguments deadlines : simpl never.
Arguments timeout_recreations : simpl never.

(** ** More on the request executor *)

Section ExecutorTraces.

Variable rt : Runtime.
Variable self : APIClient.

Lemma map_seq_shift {A} (f : Z -> A) (retry : Z) (m : nat) :
  map (fun i => f (retry + Z.of_nat i)) (seq 0 (S m)) =
  f retry :: map (fun i => f (retry + 1 + Z.of_nat i)) (seq 0 m).
Proof.
  cbn [seq map]. rewrite <- seq_shift, map_map. f_equal.
  - f_equal. cbn. lia.
  - apply map_ext. intros i. f_equal. lia.
Qed.

(** Everything one run of the loop puts in the trace, as lists indexed
    by the attempt number. *)
Lemma attempts_lists (req : request) (k : nat) :
  forall retry w r w' tr,
    retry + Z.of_nat k = max_retries self ->
    attempts rt self k retry req w = (r, w', tr) ->
    (List.length (invocations tr) <= k)%nat /\
    (1 <= k -> 1 <= List.length (invocations tr))%nat /\
    requests tr = repeat req (List.length (invocations tr)) /\
    deadlines tr =
      map (fun i => attempt_timeout self (retry + Z.of_nat i))
        (seq 0 (List.length (invocations tr))) /\
    sleeps Backoff tr =
      map (fun i => backoff_delay (retry + Z.of_nat i))
        (seq 0 (pred (List.length (invocations tr)))).
Proof.
  induction k as [|k IH]; intros retry w r w' tr Hinv Hrun.
  - inversion Hrun; subst. repeat split; try reflexivity; cbn; lia.
  - rewrite attempts_S in Hrun; cbv zeta in Hrun.
    destruct (wait_for rt req (attempt_timeout self retry) w) as [[v|e] w1].
    + inversion Hrun; subst. observe. rewrite Z.add_0_r.
      repeat split; try reflexivity; lia.
    + destruct (retry <? max_retries self - 1) eqn:Hlt.
      * apply Z.ltb_lt in Hlt.
        destruct (attempts rt self k (retry + 1) req _) as [[r2 w2] t2] eqn:Hrest.
        inversion Hrun; subst; clear Hrun.
        assert (Hinv' : retry + 1 + Z.of_nat k = max_retries self) by lia.
        destruct (IH _ _ _ _ _ Hinv' Hrest) as (Hle & Hge & Hreq & Hdl & Hsl).
        assert (Hk : (1 <= k)%nat) by lia. specialize (Hge Hk).
        match goal with
        | |- context [invocations ?t] => set (T := t)
        end.
        assert (Hobs : invocations T = Failed e :: invocations t2 /\
                       requests T = req :: requests t2 /\
                       deadlines T = attempt_timeout self retry :: deadlines t2 /\
                       sleeps Backoff T = backoff_delay retry :: sleeps Backoff t2).
        { subst T. observe.
          destruct (isinstance_asyncio_TimeoutError rt e); repeat split. }
        destruct Hobs as (-> & -> & -> & ->). cbn [List.length].
        split; [lia |]. split; [lia |].
        destruct (List.length (invocations t2)) as [|m] eqn:Hm; [lia |].
        rewrite Hreq, Hdl, Hsl. cbn [pred].
        rewrite (map_seq_shift (attempt_timeout self) retry (S m)),
          (map_seq_shift backoff_delay retry m).
        repeat split; reflexivity.
      * destruct (isinstance_asyncio_TimeoutError rt e);
          inversion Hrun; subst; observe; rewrite Z.add_0_r;
          repeat split; try reflexivity; lia.
Qed.

(** How one run of the loop ends: on the first attempt that returns,
    with its value, or after the last attempt has failed too. *)
Lemma attempts_outcome (req : request) (k : nat) :
  forall retry w r w' tr,
    retry + Z.of_nat (S k) = max_retries self ->
    attempts rt self (S k) retry req w = (r, w', tr) ->
    match r with
    | Ok v =>
        exists es,
          invocations tr = map Failed es ++ [Returned v] /\
          (List.length es <= k)%nat
    | Raise e =>
        exists es e_last,
          invocations tr = map Failed (es ++ [e_last]) /\
          List.length es = k /\
          e = final_error rt self e_last
    end.
Proof.
  induction k as [|k IH]; intros retry w r w' tr Hinv Hrun;
    rewrite attempts_S in Hrun; cbv zeta in Hrun;
    destruct (wait_for rt req (attempt_timeout self retry) w) as [[v|e] w1].
  - inversion Hrun; subst. exists []. split; [reflexivity | cbn; lia].
  - assert (Hlt : (retry <? max_retries self - 1) = false) by (apply Z.ltb_ge; lia).
    rewrite Hlt in Hrun. unfold final_error.
    destruct (isinstance_asyncio_TimeoutError rt e) eqn:He;
      inversion Hrun; subst; exists [], e; rewrite He; repeat split.
  - inversion Hrun; subst. exists []. split; [reflexivity | cbn; lia].
  - assert (Hlt : (retry <? max_retries self - 1) = true) by (apply Z.ltb_lt; lia).
    rewrite Hlt in Hrun.
    destruct (attempts rt self (S k) (retry + 1) req _) as [[r2 w2] t2] eqn:Hrest.
    inversion Hrun; subst; clear Hrun.
    assert (Hinv' : retry + 1 + Z.of_nat (S k) = max_retries self) by lia.
    specialize (IH _ _ _ _ _ Hinv' Hrest).
    match goal with
    | |- context [invocations ?t] =>
        assert (Hobs : invocations t = Failed e :: invocations t2)
          by (observe; destruct (isinstance_asyncio_TimeoutError rt e); reflexivity)
    end.
    destruct r as [v|e'].
    + destruct IH as (es & Hes & Hlen). exists (e :: es).
      rewrite Hobs, Hes. split; [reflexivity | cbn; lia].
    + destruct IH as (es & e_last & Hes & Hlen & Hfin). exists (e :: es), e_last.
      rewrite Hobs, Hes. repeat split; [cbn; lia | exact Hfin].
Qed.

End ExecutorTraces.

Lemma Zsum_app (a b : list Z) : Zsum (a ++ b) = Zsum a + Zsum b.
Proof.
  unfold Zsum. induction a as [|x a IH]; cbn; [reflexivity | rewrite IH; lia].
Qed.

Lemma Zsum_triangle (m : nat) :
  2 * Zsum (map (fun i => Z.of_nat i + 1) (seq 0 m)) = Z.of_nat m * (Z.of_nat m + 1).
Proof.
  induction m as [|m IH]; [reflexivity |].
  rewrite seq_S, map_app, Zsum_app. unfold Zsum at 2. cbn [map fold_right Nat.add]. lia.
Qed.

Lemma Qsum_scaled (base : Q) (l : list Z) :
  (Qsum (map (fun z => base * inject_Z z) l) == base * inject_Z (Zsum l))%Q.
Proof.
  unfold Qsum, Zsum. induction l as [|z l IH]; cbn [map fold_right].
  - ring.
  - rewrite IH, inject_Z_plus. ring.
Qed.

(** X1. Whatever the operation does, one call of the executor makes at
    most [max_retries] attempts, all of them of the operation it was
    given, and sleeps a backoff exactly once between two consecutive
    attempts. *)
Theorem executor_attempt_bounds
    (rt : Runtime) (self : APIClient) (req : request) (w : World rt) :
  let tr := snd (make_api_request_async rt self req w) in
  (List.length (invocations tr) <= Z.to_nat (max_retries self))%nat /\
  requests tr = repeat req (List.length (invocations tr)) /\
  List.length (sleeps Backoff tr) = pred (List.length (invocations tr)).
Proof.
  cbv zeta.
  destruct (make_api_request_async rt self req w) as [[r w'] tr] eqn:Hrun.
  cbn [snd]. unfold make_api_request_async in Hrun.
  destruct (Z_lt_le_dec (max_retries self) 0) as [Hneg | Hnn].
  - replace (Z.to_nat (max_retries self)) with 0%nat in * by lia.
    injection Hrun as <- <- <-. repeat split. reflexivity.
  - assert (Hinv : 0 + Z.of_nat (Z.to_nat (max_retries self)) = max_retries self) by lia.
    destruct (attempts_lists rt self req _ 0 w r w' tr Hinv Hrun)
      as (Hle & _ & Hreq & _ & Hsl).
    split; [exact Hle |]. split; [exact Hreq |].
    now rewrite Hsl, length_map, length_seq.
Qed.

(** X2. With [max_retries = N > 0] the executor returns a value only as
    the value of an attempt, the first one that returned, every earlier
    attempt having failed; and it raises only after [N] attempts have
    failed, the error being decided by the last of them. *)
Theorem first_success_ends_call
    (rt : Runtime) (self : APIClient) (req : request) (w : World rt)
    (r : result pyval) (w' : World rt) (tr : trace) :
  0 < max_retries self ->
  make_api_request_async rt self req w = (r, w', tr) ->
  match r with
  | Ok v =>
      exists es,
        invocations tr = map Failed es ++ [Returned v] /\
        (List.length es < Z.to_nat (max_retries self))%nat
  | Raise e =>
      exists es e_last,
        invocations tr = map Failed (es ++ [e_last]) /\
        List.length (es ++ [e_last]) = Z.to_nat (max_retries self) /\
        e = final_error rt self e_last
  end.
Proof.
  intros Hpos Hrun. unfold make_api_request_async in Hrun.
  destruct (Z.to_nat (max_retries self)) as [|k] eqn:Hk; [lia |].
  pose proof (attempts_outcome rt self req k 0 w r w' tr ltac:(lia) Hrun) as Hout.
  destruct r as [v|e].
  - destruct Hout as (es & Hes & Hlen). exists es. split; [exact Hes | lia].
  - destruct Hout as (es & e_last & Hes & Hlen & He). exists es, e_last.
    split; [exact Hes |]. split; [| exact He].
    rewrite length_app. cbn. lia.
Qed.

Lemma first_success_ends_call_witness :
  exists es,
    invocations (snd (make_api_request_async (Sim.runtime true) APIClient_init
                        Sim.retrieve Sim.slow_then_fine))
    = map Failed es ++ [Returned (Sim.run_ "run_1" "queued")] /\
    (List.length es < 2)%nat.
Proof.
  exact (first_success_ends_call (Sim.runtime true) APIClient_init Sim.retrieve
           Sim.slow_then_fine (Ok (Sim.run_ "run_1" "queued"))
           (Sim.mkWorld [] 76 true)
           (snd (make_api_request_async (Sim.runtime true) APIClient_init
                   Sim.retrieve Sim.slow_then_fine))
           eq_refl eq_refl).
Defined.

(** X3. The worst case of one call, in seconds: with [max_retries = N]
    and a [base_timeout] that is not negative, the deadlines of all the
    attempts add up to at most [base_timeout * N * (N + 1) / 2] and the
    backoff sleeps to at most [N * (N - 1) / 2]. *)
Theorem executor_time_budget
    (rt : Runtime) (self : APIClient) (req : request) (w : World rt)
    (r : result pyval) (w' : World rt) (tr : trace) :
  (0 <= base_timeout self)%Q ->
  0 <= max_retries self ->
  make_api_request_async rt self req w = (r, w', tr) ->
  (2 * Qsum (deadlines tr)
   <= base_timeout self * inject_Z (max_retries self * (max_retries self + 1)))%Q /\
  2 * Zsum (sleeps Backoff tr) <= max_retries self * (max_retries self - 1).
Proof.
  intros Hbase Hnn Hrun. unfold make_api_request_async in Hrun.
  assert (Hinv : 0 + Z.of_nat (Z.to_nat (max_retries self)) = max_retries self) by lia.
  destruct (attempts_lists rt self req _ 0 w r w' tr Hinv Hrun)
    as (Hle & _ & _ & Hdl & Hsl).
  set (m := List.length (invocations tr)) in *.
  split.
  - rewrite Hdl.
    assert (Hmap : map (fun i => attempt_timeout self (0 + Z.of_nat i)) (seq 0 m)
                   = map (fun z => base_timeout self * inject_Z z)%Q
                       (map (fun i => Z.of_nat i + 1) (seq 0 m))).
    { rewrite map_map. reflexivity. }
    rewrite Hmap, Qsum_scaled.
    pose proof (Zsum_triangle m) as Htri.
    set (total := Zsum (map (fun i => Z.of_nat i + 1) (seq 0 m))) in *.
    setoid_replace (2 * (base_timeout self * inject_Z total))%Q
      with (base_timeout self * inject_Z (2 * total))%Q
      by (rewrite inject_Z_mult; ring).
    rewrite Htri, !(Qmult_comm (base_timeout self)).
    apply Qmult_le_compat_r; [| exact Hbase].
    rewrite <- Zle_Qle. nia.
  - rewrite Hsl.
    assert (Hmap : map (fun i => backoff_delay (0 + Z.of_nat i)) (seq 0 (pred m))
                   = map (fun i => Z.of_nat i + 1) (seq 0 (pred m))).
    { apply map_ext. intros i. unfold backoff_delay. lia. }
    rewrite Hmap, Zsum_triangle. nia.
Qed.

Lemma executor_time_budget_witness :
  let tr := snd (make_api_request_async (Sim.runtime true) APIClient_init
                   Sim.retrieve Sim.too_slow) in
  (2 * Qsum (deadlines tr) <= 30 * inject_Z (2 * (2 + 1)))%Q /\
  2 * Zsum (sleeps Backoff tr) <= 2 * (2 - 1).
Proof.
  refine (executor_time_budget (Sim.runtime true) APIClient_init Sim.retrieve
            Sim.too_slow _ _ _ _ _ _).
  - discriminate.
  - discriminate.
  - vm_compute. reflexivity.
Defined.

(** ** More on the polling loop *)

Lemma timeout_recreations_none (tr : trace) :
  recreations tr = [] -> timeout_recreations tr = [].
Proof.
  induction tr as [|ev tr IH]; [reflexivity |].
  rewrite recreations_cons, timeout_recreations_cons.
  destruct ev as [? ? ?|? ?|? ?|? []]; cbn; try exact IH; discriminate.
Qed.

(** What the polling loop needs to know of a call of the executor. *)
Lemma make_api_request_async_calls
    (rt : Runtime) (self : APIClient) (req : request) (w : World rt)
    (r : result pyval) (w' : World rt) (tr : trace) :
  make_api_request_async rt self req w = (r, w', tr) ->
  Forall (fun q => thread_of q = thread_of req) (requests tr) /\
  (is_cancel req = false -> existsb is_cancel (requests tr) = false) /\
  timeout_recreations tr = [] /\
  sleeps PollInterval tr = [] /\
  recreations tr = [].
Proof.
  intros Hrun.
  destruct (make_api_request_async_quiet _ _ _ _ _ _ _ Hrun) as (Hs & _ & Hr).
  assert (Hreq : exists m, requests tr = repeat req m).
  { unfold make_api_request_async in Hrun.
    destruct (Z_lt_le_dec (max_retries self) 0) as [Hneg | Hnn].
    - replace (Z.to_nat (max_retries self)) with 0%nat in * by lia.
      injection Hrun as <- <- <-. now exists 0%nat.
    - assert (Hinv : 0 + Z.of_nat (Z.to_nat (max_retries self)) = max_retries self)
        by lia.
      destruct (attempts_lists rt self req _ 0 w r w' tr Hinv Hrun)
        as (_ & _ & Hreq & _).
      eexists. exact Hreq. }
  destruct Hreq as (m & ->).
  split; [| split; [| split; [now apply timeout_recreations_none | now split]]].
  - apply Forall_forall. intros q Hq. apply repeat_spec in Hq. now subst.
  - intros Hc. induction m as [|m IH]; cbn; [reflexivity | now rewrite Hc].
Qed.

(** Case analysis of a run of the loop body [H], as [crunch], keeping
    more of each call of the executor. *)
Ltac crunch_calls H :=
  repeat (cbn beta iota zeta in H;
    match type of H with
    | context [match make_api_request_async ?r ?s ?req ?w with _ => _ end] =>
        let E := fresh "E" in
        let Hc := fresh "Hcancel" in
        destruct (make_api_request_async r s req w) as [[[[|?]|?] ?] ?] eqn:E;
        apply make_api_request_async_calls in E;
        destruct E as (? & Hc & ? & ? & ?);
        cbn [thread_of is_cancel] in *;
        try specialize (Hc eq_refl)
    | context [if py_in ?a ?b then _ else _] => destruct (py_in a b) eqn:?
    | context [if negb ?b then _ else _] => destruct b eqn:?; cbn [negb] in H
    | context [if Z.ltb ?a ?b then _ else _] => destruct (Z.ltb a b) eqn:?
    | context [if Qgtb ?a ?b then _ else _] => destruct (Qgtb a b) eqn:?
    | context [if isinstance_TimeoutError ?r ?e then _ else _] =>
        destruct (isinstance_TimeoutError r e) eqn:?
    | context [match ?f ?a ?w with _ => _ end] =>
        is_var f; destruct (f a w) as [[?|] ?] eqn:?
    | context [match ?x with _ => _ end] => is_var x; destruct x
    end).

Section PollingPasses.

Variable rt : Runtime.
Variable self : APIClient.
Variable thread_id : string.
Variable callback : option (callback_t rt).

(** One pass: whom it calls, when it cancels, and that it either sleeps
    one second or recreates, never both. *)
Lemma iteration_pass st w r w' tr :
  iteration rt self thread_id callback st w = (r, w', tr) ->
  Forall (fun q => thread_of q = thread_id) (requests tr) /\
  (timeout_recreations tr = [] -> existsb is_cancel (requests tr) = false) /\
  match r with
  | Ok (Continue _) =>
      (sleeps PollInterval tr = [1] /\ recreations tr = []) \/
      (sleeps PollInterval tr = [] /\ List.length (recreations tr) = 1%nat)
  | _ =>
      sleeps PollInterval tr = [] /\ (List.length (recreations tr) <= 1)%nat
  end.
Proof.
  intros H.
  unfold iteration, poll_body, bind, try_except, log, ret, raise, loop_time,
    asyncio_sleep, await_callback in H.
  crunch_calls H.
  all: inversion H; subst; clear H.
  all: observe.
  all: repeat match goal with
         | Hq : _ = [] |- _ => rewrite ?Hq; clear Hq
         end.
  all: cbn [app]; rewrite ?app_nil_r.
  all: split; [| split].
  all: try (repeat (apply Forall_app; split); solve [assumption | constructor]).
  all: try (intros Hnone; try discriminate Hnone;
            rewrite ?existsb_app;
            repeat match goal with
              | Hc : existsb is_cancel _ = false |- _ => rewrite ?Hc; clear Hc
              end;
            reflexivity).
  all: try solve [ left; split; reflexivity
                 | right; split; reflexivity
                 | split; [reflexivity | cbn; lia] ].
Qed.

Lemma poll_loop_passes fuel :
  forall st w r w' tr,
    poll_loop rt self fuel thread_id callback st w = (r, w', tr) ->
    Forall (fun q => thread_of q = thread_id) (requests tr) /\
    (timeout_recreations tr = [] -> existsb is_cancel (requests tr) = false) /\
    Forall (fun s => s = 1) (sleeps PollInterval tr) /\
    (List.length (sleeps PollInterval tr) + List.length (recreations tr) <= fuel)%nat /\
    (forall st', r = Ok (StillPolling st') ->
       (List.length (sleeps PollInterval tr) + List.length (recreations tr) = fuel)%nat).
Proof.
  induction fuel as [|fuel IH]; intros st w r w' tr Hrun.
  - injection Hrun as <- <- <-. observe.
    split; [constructor |]. split; [reflexivity |]. split; [constructor |].
    split; [lia | reflexivity].
  - rewrite poll_loop_S in Hrun.
    destruct (run_status_check rt w).
    2:{ injection Hrun as <- <- <-. observe.
        split; [constructor |]. split; [reflexivity |]. split; [constructor |].
        split; [lia | discriminate]. }
    destruct (iteration rt self thread_id callback st w) as [[c w1] t1] eqn:Hit.
    apply iteration_pass in Hit. destruct Hit as (Hthr & Hcan & Hpass).
    destruct c as [[st'|v]|e].
    + destruct (poll_loop rt self fuel thread_id callback st' w1) as [[r2 w2] t2] eqn:Hrest.
      injection Hrun as <- <- <-.
      destruct (IH _ _ _ _ _ Hrest) as (Hthr2 & Hcan2 & Hone & Hle & Heq).
      observe. rewrite !length_app.
      split; [apply Forall_app; now split |].
      split.
      { intros Hnone. apply app_eq_nil in Hnone. destruct Hnone as [Hn1 Hn2].
        rewrite existsb_app, (Hcan Hn1), (Hcan2 Hn2). reflexivity. }
      destruct Hpass as [[Hs Hr] | [Hs Hr]]; rewrite Hs.
      * rewrite Hr. cbn [app List.length].
        split; [constructor; [reflexivity | exact Hone] |].
        split; [lia |]. intros st2 Hst. specialize (Heq _ Hst). lia.
      * cbn [app List.length]. split; [exact Hone |].
        split; [lia |]. intros st2 Hst. specialize (Heq _ Hst). lia.
    + injection Hrun as <- <- <-. destruct Hpass as [Hs Hr]. rewrite Hs.
      split; [exact Hthr |]. split; [exact Hcan |]. split; [constructor |].
      split; [cbn; lia | discriminate].
    + injection Hrun as <- <- <-. destruct Hpass as [Hs Hr]. rewrite Hs.
      split; [exact Hthr |]. split; [exact Hcan |]. split; [constructor |].
      split; [cbn; lia | discriminate].
Qed.

End PollingPasses.

Lemma check_run_status_trace
    (rt : Runtime) (self : APIClient) (thread_id run_id0 : string)
    (callback : option (callback_t rt)) (fuel : nat) (w : World rt)
    (r : result polling) (w' : World rt) (tr : trace) :
  _check_run_status rt self fuel thread_id run_id0 callback w = (r, w', tr) ->
  exists tr0,
    poll_loop rt self fuel thread_id callback
      {| run_id := run_id0; start_time := time rt w; retry_count := 0 |} w
      = (r, w', tr0) /\
    requests tr = requests tr0 /\
    sleeps PollInterval tr = sleeps PollInterval tr0 /\
    recreations tr = recreations tr0 /\
    timeout_recreations tr = timeout_recreations tr0.
Proof.
  rewrite check_run_status_eq.
  destruct (poll_loop _ _ _ _ _ _ _) as [[[p|e] w1] t1]; intros [= <- <- <-].
  - now exists t1.
  - exists t1. observe. now rewrite !app_nil_r.
Qed.



(** X5. Every call a session makes, whether it retrieves, cancels or
    creates a run, goes to the thread the session was started for. *)
Theorem session_stays_on_its_thread
    (rt : Runtime) (self : APIClient) (thread_id run_id0 : string)
    (callback : option (callback_t rt)) (fuel : nat) (w : World rt) :
  Forall (fun q => thread_of q = thread_id)
    (requests (snd (_check_run_status rt self fuel thread_id run_id0 callback w))).
Proof.
  destruct (_check_run_status rt self fuel thread_id run_id0 callback w)
    as [[r w'] tr] eqn:Hrun.
  apply check_run_status_trace in Hrun.
  destruct Hrun as (tr0 & Hloop & Hreq & _). cbn [snd]. rewrite Hreq.
  apply poll_loop_passes in Hloop. exact (proj1 Hloop).
Qed.

(** X6. A session cancels a run only on the timeout path: if no
    recreation was announced as caused by the timeout, the session made
    no cancel call. In particular a failed, expired or cancelled run is
    replaced without being cancelled. *)
Theorem cancel_only_after_timeout
    (rt : Runtime) (self : APIClient) (thread_id run_id0 : string)
    (callback : option (callback_t rt)) (fuel : nat) (w : World rt)
    (r : result polling) (w' : World rt) (tr : trace) :
  _check_run_status rt self fuel thread_id run_id0 callback w = (r, w', tr) ->
  timeout_recreations tr = [] ->
  existsb is_cancel (requests tr) = false.
Proof.
  intros Hrun Hnone. apply check_run_status_trace in Hrun.
  destruct Hrun as (tr0 & Hloop & Hreq & _ & _ & Htr).
  rewrite Hreq. rewrite Htr in Hnone.
  apply poll_loop_passes in Hloop. exact (proj1 (proj2 Hloop) Hnone).
Qed.

Lemma cancel_only_after_timeout_witness :
  let tr := snd (_check_run_status (Sim.runtime true) APIClient_init 3 Sim.thread
                   "run_1" None Sim.fails_once) in
  recreations tr = [1] /\ existsb is_cancel (requests tr) = false.
Proof.
  cbv zeta. split; [vm_compute; reflexivity |].
  refine (cancel_only_after_timeout (Sim.runtime true) APIClient_init Sim.thread
            "run_1" None 3 Sim.fails_once _ _ _ _ _).
  - vm_compute. reflexivity.
  - vm_compute. reflexivity.
Defined.

Section PollingErrors.

Variable rt : Runtime.
Variable self : APIClient.
Variable thread_id : string.
Variable callback : option (callback_t rt).

Ltac run_pass :=
  unfold iteration, poll_body, try_except, bind, log, ret, raise, loop_time,
    asyncio_sleep, await_callback.

Lemma no_attempt (req : request) (w : World rt) :
  max_retries self <= 0 ->
  make_api_request_async rt self req w = (Ok PyNone, w, []).
Proof.
  intros H. unfold make_api_request_async.
  replace (Z.to_nat (max_retries self)) with 0%nat by lia. reflexivity.
Qed.

Lemma iteration_retrieve_raises st w e w1 t1 :
  make_api_request_async rt self (RunsRetrieve thread_id (run_id st)) w
    = (Raise e, w1, t1) ->
  iteration rt self thread_id callback st w
    = (Raise e, w1,
       t1 ++ (if isinstance_TimeoutError rt e then []
              else [EvLog Error (LogErrorChecking e)])).
Proof.
  intros Hget. run_pass. rewrite Hget.
  destruct (isinstance_TimeoutError rt e); reflexivity.
Qed.

Lemma iteration_recreate_raises st w r w1 t1 e w2 t2 :
  make_api_request_async rt self (RunsRetrieve thread_id (run_id st)) w
    = (Ok (PyRun r), w1, t1) ->
  py_in (Run.status r) ["failed"; "expired"; "cancelled"] = true ->
  retry_count st < max_run_retries self ->
  make_api_request_async rt self (RunsCreate thread_id (Run.assistant_id r)) w1
    = (Raise e, w2, t2) ->
  iteration rt self thread_id callback st w
    = (Raise e, w2,
       (t1 ++ EvLog Error (LogRunFailed (Run.status r))
           :: EvLog Info (LogRetryingRun (retry_count st + 1) (max_run_retries self))
           :: t2)
       ++ (if isinstance_TimeoutError rt e then []
           else [EvLog Error (LogErrorChecking e)])).
Proof.
  intros Hget Hrec Hlt Hnew. apply Z.ltb_lt in Hlt. run_pass.
  rewrite Hget. cbn. rewrite Hrec. cbn. rewrite Hlt. cbn. rewrite Hnew. cbn.
  destruct (isinstance_TimeoutError rt e); reflexivity.
Qed.

Lemma iteration_returns_without_callback st w r w1 t1 :
  callback = None ->
  make_api_request_async rt self (RunsRetrieve thread_id (run_id st)) w
    = (Ok (PyRun r), w1, t1) ->
  py_in (Run.status r) ["failed"; "expired"; "cancelled"] = false ->
  py_in (Run.status r) ["queued"; "in_progress"] = false ->
  iteration rt self thread_id callback st w = (Ok (Return (PyRun r)), w1, t1).
Proof.
  intros -> Hget Hrec Hwait. run_pass.
  rewrite Hget. cbn. rewrite Hrec, Hwait. cbn. now rewrite !app_nil_r.
Qed.

End PollingErrors.

(** X7. With an executor that makes no attempt ([max_retries <= 0])
    polling cannot read a status: the first pass raises
    [AttributeError] for the attribute [status] of [None], without any
    call having been made. *)
Theorem polling_without_attempts
    (rt : Runtime) (self : APIClient) (thread_id run_id0 : string)
    (callback : option (callback_t rt)) (fuel : nat) (w : World rt) :
  max_retries self <= 0 ->
  run_status_check rt w = true ->
  _check_run_status rt self (S fuel) thread_id run_id0 callback w
  = (Raise (AttributeError "status"), w,
     [EvLog Error (LogErrorChecking (AttributeError "status"));
      EvLog Error (LogFinalError (AttributeError "status"))]).
Proof.
  intros Hzero Hflag.
  rewrite check_run_status_eq, poll_loop_S, Hflag.
  unfold iteration, poll_body, try_except, bind.
  rewrite (no_attempt rt self _ w Hzero). reflexivity.
Qed.

Lemma polling_without_attempts_witness :
  fst (fst (_check_run_status (Sim.runtime true)
              {| max_retries := 0; base_timeout := 30;
                 max_run_retries := 2; run_timeout := 30 |}
              3 Sim.thread "run_1" None Sim.completes))
  = Raise (AttributeError "status").
Proof.
  rewrite (polling_without_attempts (Sim.runtime true)
             {| max_retries := 0; base_timeout := 30;
                max_run_retries := 2; run_timeout := 30 |}
             Sim.thread "run_1" None 2 Sim.completes);
    [reflexivity | discriminate | reflexivity].
Defined.

(** X8. The polling loop does not absorb an error of the executor on a
    status read or on a recreation after a failed status: it stops and
    raises that error. After a failed read no run has been recreated;
    after a failed recreation the recreation has been counted. *)
Theorem executor_errors_end_polling
    (rt : Runtime) (self : APIClient) (thread_id : string)
    (callback : option (callback_t rt)) (fuel : nat) (st : poll_state)
    (w : World rt) :
  run_status_check rt w = true ->
  (forall e w1 t1,
      make_api_request_async rt self (RunsRetrieve thread_id (run_id st)) w
        = (Raise e, w1, t1) ->
      exists tr,
        poll_loop rt self (S fuel) thread_id callback st w = (Raise e, w1, tr) /\
        requests tr = requests t1 /\ recreations tr = []) /\
  (forall r w1 t1 e w2 t2,
      make_api_request_async rt self (RunsRetrieve thread_id (run_id st)) w
        = (Ok (PyRun r), w1, t1) ->
      py_in (Run.status r) ["failed"; "expired"; "cancelled"] = true ->
      retry_count st < max_run_retries self ->
      make_api_request_async rt self (RunsCreate thread_id (Run.assistant_id r)) w1
        = (Raise e, w2, t2) ->
      exists tr,
        poll_loop rt self (S fuel) thread_id callback st w = (Raise e, w2, tr) /\
        requests tr = requests t1 ++ requests t2 /\
        recreations tr = [retry_count st + 1]).
Proof.
  intros Hflag. split.
  - intros e w1 t1 Hget.
    destruct (make_api_request_async_quiet _ _ _ _ _ _ _ Hget) as (_ & _ & Hq).
    eexists. split.
    + rewrite poll_loop_S, Hflag,
        (iteration_retrieve_raises rt self thread_id callback st w e w1 t1 Hget).
      reflexivity.
    + observe. rewrite Hq.
      destruct (isinstance_TimeoutError rt e); observe; now rewrite ?app_nil_r.
  - intros r w1 t1 e w2 t2 Hget Hrec Hlt Hnew.
    destruct (make_api_request_async_quiet _ _ _ _ _ _ _ Hget) as (_ & _ & Hq1).
    destruct (make_api_request_async_quiet _ _ _ _ _ _ _ Hnew) as (_ & _ & Hq2).
    eexists. split.
    + rewrite poll_loop_S, Hflag,
        (iteration_recreate_raises rt self thread_id callback st w r w1 t1 e w2 t2
           Hget Hrec Hlt Hnew).
      reflexivity.
    + observe. rewrite Hq1, Hq2.
      destruct (isinstance_TimeoutError rt e); observe; now rewrite ?app_nil_r.
Qed.

Lemma executor_errors_end_polling_witness :
  exists tr,
    poll_loop (Sim.runtime true) APIClient_init 5 Sim.thread None
      {| run_id := "run_1"; start_time := 0; retry_count := 0 |} Sim.unreachable
    = (Raise (RemoteError "APIConnectionError" "Connection error."),
       Sim.mkWorld [] 3 true, tr) /\
    requests tr = [RunsRetrieve Sim.thread "run_1"; RunsRetrieve Sim.thread "run_1"] /\
    recreations tr = [].
Proof.
  destruct (proj1 (executor_errors_end_polling (Sim.runtime true) APIClient_init
                     Sim.thread None 4
                     {| run_id := "run_1"; start_time := 0; retry_count := 0 |}
                     Sim.unreachable eq_refl)
              (RemoteError "APIConnectionError" "Connection error.")
              (Sim.mkWorld [] 3 true)
              (snd (make_api_request_async (Sim.runtime true) APIClient_init
                      (RunsRetrieve Sim.thread "run_1") Sim.unreachable))
              eq_refl)
    as (tr & Hloop & Hreq & Hrec).
  exists tr. split; [exact Hloop |]. split; [rewrite Hreq; vm_compute; reflexivity |].
  exact Hrec.
Defined.

(** X9. A status that is neither failed, expired, cancelled nor queued,
    in_progress is final whatever it is (completed, requires_action,
    cancelling, incomplete, ...): without a callback the session returns
    the run as read, having made no other call, slept no poll interval
    and recreated nothing. *)
Theorem other_status_returns_at_once
    (rt : Runtime) (self : APIClient) (thread_id run_id0 : string)
    (fuel : nat) (w : World rt) (r : Run.t) (w1 : World rt) (t1 : trace) :
  run_status_check rt w = true ->
  make_api_request_async rt self (RunsRetrieve thread_id run_id0) w
    = (Ok (PyRun r), w1, t1) ->
  py_in (Run.status r) ["failed"; "expired"; "cancelled"] = false ->
  py_in (Run.status r) ["queued"; "in_progress"] = false ->
  _check_run_status rt self (S fuel) thread_id run_id0 None w
    = (Ok (Finished (PyRun r)), w1, t1) /\
  requests t1 = repeat (RunsRetrieve thread_id run_id0) (List.length (invocations t1)) /\
  sleeps PollInterval t1 = [] /\
  recreations t1 = [].
Proof.
  intros Hflag Hget Hrec Hwait.
  destruct (make_api_request_async_quiet _ _ _ _ _ _ _ Hget) as (Hs & _ & Hq).
  split; [| split; [| now split]].
  - rewrite check_run_status_eq, poll_loop_S, Hflag.
    rewrite (iteration_returns_without_callback rt self thread_id None
               {| run_id := run_id0; start_time := time rt w; retry_count := 0 |}
               w r w1 t1 eq_refl Hget Hrec Hwait).
    reflexivity.
  - unfold make_api_request_async in Hget.
    destruct (Z_lt_le_dec (max_retries self) 0) as [Hneg | Hnn].
    + replace (Z.to_nat (max_retries self)) with 0%nat in * by lia. discriminate Hget.
    + assert (Hinv : 0 + Z.of_nat (Z.to_nat (max_retries self)) = max_retries self)
        by lia.
      exact (proj1 (proj2 (proj2 (attempts_lists rt self _ _ 0 w _ w1 t1 Hinv Hget)))).
Qed.

Lemma other_status_returns_at_once_witness :
  fst (fst (_check_run_status (Sim.runtime true) APIClient_init 1 Sim.thread
              "run_1" None Sim.wants_action))
  = Ok (Finished (Sim.run_ "run_1" "requires_action")).
Proof.
  rewrite (proj1 (other_status_returns_at_once (Sim.runtime true) APIClient_init
                    Sim.thread "run_1" 0 Sim.wants_action
                    (Run.make "run_1" "asst_1" "requires_action")
                    (Sim.mkWorld [] 1 true)
                    (snd (make_api_request_async (Sim.runtime true) APIClient_init
                            (RunsRetrieve Sim.thread "run_1") Sim.wants_action))
                    eq_refl eq_refl eq_refl eq_refl)).
  reflexivity.
Defined.

(** ** Reading the assistant's reply *)

Section ProcessResponseProperties.

Import InterviewSession.

Variable loads : string -> option json.
Variable Config : Type.
Variable increment_question : Config -> Config.
Variable set_is_completed : Config -> Config.

(** X10. For every [message_type] the interviewer's response schema
    allows, [_process_response] returns the reply text as it came and
    never marks the interview completed: the configuration is advanced by
    [increment_question] for "question" and left as it was for
    "follow_up", "final_eval" and "others". *)
Theorem schema_message_types_never_complete
    (m : messages) (c : Config) (response : string) (response_data data : json)
    (t : string) :
  first_text m = inr response ->
  loads response = Some response_data ->
  getitem response_data "data" = inr data ->
  getitem data "message_type" = inr (JString t) ->
  In t schema_message_types ->
  _process_response loads Config increment_question set_is_completed m c =
  {| returned := inr response;
     config := if String.eqb t "question" then increment_question c else c;
     logged := [] |}.
Proof.
  intros Htext Hloads Hdata Htype Hin.
  unfold _process_response, process_body, message_type.
  rewrite Htext, Hloads, Hdata, Htype.
  cbn in Hin. destruct Hin as [<- | [<- | [<- | [<- | []]]]]; reflexivity.
Qed.

(** X11. When [_process_response] raises, the configuration is as it was
    before the call, and the reason is one of three: there is no first
    text block to read, the text is not JSON, or the decoded value has no
    [["data"]["message_type"]]. The error is logged exactly when it is a
    [JSONDecodeError], [KeyError] or [IndexError]. *)
Theorem rejected_response_changes_nothing
    (m : messages) (c : Config) (e : error) :
  returned _ (_process_response loads Config increment_question set_is_completed m c) = inl e ->
  config _ (_process_response loads Config increment_question set_is_completed m c) = c /\
  logged _ (_process_response loads Config increment_question set_is_completed m c) = (if caught e then [e] else []) /\
  (first_text m = inl e \/
   (exists response,
       first_text m = inr response /\ loads response = None /\ e = JSONDecodeError) \/
   (exists response response_data,
       first_text m = inr response /\ loads response = Some response_data /\
       message_type response_data = inl e)).
Proof.
  unfold _process_response, process_body.
  destruct (first_text m) as [e0|response] eqn:Htext.
  - cbn. intros [= ->]. repeat split. now left.
  - destruct (loads response) as [response_data|] eqn:Hloads.
    + destruct (message_type response_data) as [e0|t] eqn:Htype.
      * cbn. intros [= ->]. repeat split. right. right.
        now exists response, response_data.
      * destruct (eq_str t "question"); [cbn; discriminate |].
        destruct (eq_str t "final_evaluation"); cbn; discriminate.
    + cbn. intros [= <-]. repeat split. right. left. now exists response.
Qed.

End ProcessResponseProperties.

Lemma schema_message_types_never_complete_witness :
  InterviewSession._process_response
    (fun s => if String.eqb s "reply"
              then Some (JObject
                           [("data", JObject [("message_type", JString "final_eval")])])
              else None)
    (nat * bool) (fun c => (S (fst c), snd c)) (fun c => (fst c, true))
    (Some [[InterviewSession.TextContentBlock "reply"]]) (3%nat, false)
  = {| InterviewSession.returned := inr "reply";
       InterviewSession.config := (3%nat, false);
       InterviewSession.logged := [] |}.
Proof.
  apply (schema_message_types_never_complete
           (fun s => if String.eqb s "reply"
                     then Some (JObject
                                  [("data",
                                    JObject [("message_type", JString "final_eval")])])
                     else None)
           (nat * bool) (fun c => (S (fst c), snd c)) (fun c => (fst c, true))
           (Some [[InterviewSession.TextContentBlock "reply"]]) (3%nat, false)
           "reply"
           (JObject [("data", JObject [("message_type", JString "final_eval")])])
           (JObject [("message_type", JString "final_eval")])
           "final_eval");
    try reflexivity.
  cbn. tauto.
Defined.

Lemma rejected_response_changes_nothing_witness :
  InterviewSession.config _
    (InterviewSession._process_response (fun _ => None)
       (nat * bool) (fun c => (S (fst c), snd c)) (fun c => (fst c, true))
       (Some []) (3%nat, false))
  = (3%nat, false).
Proof.
  exact (proj1 (rejected_response_changes_nothing (fun _ => None)
                  (nat * bool) (fun c => (S (fst c), snd c)) (fun c => (fst c, true))
                  (Some []) (3%nat, false) InterviewSession.IndexError eq_refl)).
Defined.

(** ** The validation cache *)

Lemma Qltb_lt (a b : Q) : PortfolioManager.Qltb a b = true <-> (a < b)%Q.
Proof.
  unfold PortfolioManager.Qltb. rewrite Qlt_alt.
  destruct (a ?= b)%Q; split; intros H; try reflexivity; discriminate H.
Qed.

Lemma retain_kept (now : Q) (c kept : PortfolioManager.cache) :
  PortfolioManager.retain now c = inr kept ->
  forall k v,
    In (k, v) kept <->
    In (k, v) c /\
    exists t, PortfolioManager.last_accessed v = Some t /\
              (now - t < inject_Z PortfolioManager.max_age)%Q.
Proof.
  revert kept. induction c as [|[k0 v0] c IH]; intros kept Hret k v.
  - injection Hret as <-. cbn. split; [intros [] | intros [[] _]].
  - cbn [PortfolioManager.retain] in Hret.
    destruct (PortfolioManager.last_accessed v0) as [t0|] eqn:Ht0; [| discriminate].
    destruct (PortfolioManager.retain now c) as [e|kept0]; [discriminate |].
    injection Hret as <-. specialize (IH kept0 eq_refl k v).
    destruct (PortfolioManager.Qltb (now - t0) (inject_Z PortfolioManager.max_age))
      eqn:Hage.
    + apply Qltb_lt in Hage. cbn [In]. rewrite IH. split.
      * intros [[= <- <-] | [Hin Hyoung]]; [| now split; [right |]].
        split; [now left | now exists t0].
      * intros [[Heq | Hin] Hyoung]; [now left | right; now split].
    + rewrite IH. cbn [In]. split.
      * intros [Hin Hyoung]. split; [now right | exact Hyoung].
      * intros [[[= <- <-] | Hin] Hyoung]; [| now split].
        destruct Hyoung as (t & Ht & Hlt). rewrite Ht0 in Ht. injection Ht as <-.
        apply Qltb_lt in Hlt. rewrite Hlt in Hage. discriminate.
Qed.

Lemma retain_later (t1 t2 : Q) (c kept1 : PortfolioManager.cache) :
  (t1 <= t2)%Q ->
  PortfolioManager.retain t1 c = inr kept1 ->
  exists kept2,
    PortfolioManager.retain t2 c = inr kept2 /\
    PortfolioManager.retain t2 kept1 = inr kept2.
Proof.
  intros Hle. revert kept1. induction c as [|[k0 v0] c IH]; intros kept1 Hret.
  - injection Hret as <-. now exists [].
  - cbn [PortfolioManager.retain] in *.
    destruct (PortfolioManager.last_accessed v0) as [t0|] eqn:Ht0; [| discriminate].
    destruct (PortfolioManager.retain t1 c) as [e|kept1'] eqn:H1; [discriminate |].
    injection Hret as <-.
    destruct (IH kept1' eq_refl) as (kept2' & H2 & H12). rewrite H2.
    destruct (PortfolioManager.Qltb (t2 - t0) (inject_Z PortfolioManager.max_age))
      eqn:Hage2;
      destruct (PortfolioManager.Qltb (t1 - t0) (inject_Z PortfolioManager.max_age))
        eqn:Hage1.
    + eexists. split; [reflexivity |].
      cbn [PortfolioManager.retain]. now rewrite Ht0, H12, Hage2.
    + apply Qltb_lt in Hage2.
      assert (Hlt : (t1 - t0 < inject_Z PortfolioManager.max_age)%Q).
      { apply Qle_lt_trans with (y := (t2 - t0)%Q); [| exact Hage2].
        unfold Qminus. apply Qplus_le_compat; [exact Hle | apply Qle_refl]. }
      apply Qltb_lt in Hlt. rewrite Hlt in Hage1. discriminate.
    + eexists. split; [reflexivity |].
      cbn [PortfolioManager.retain]. now rewrite Ht0, H12, Hage2.
    + eexists. split; [reflexivity | exact H12].
Qed.

Section CleanupProperties.

Import PortfolioManager.

Variable Env : Type.
Variable time_time : Env -> Q.
Variable write_cache : cache -> Env -> option string * Env.

(** X12. A [cleanup] that does not raise leaves in the cache exactly the
    entries accessed less than 30 days (2592000 s) before the clock
    reading, each with the value it had; an entry exactly 30 days old is
    dropped. This holds whether or not the cache file could be written. *)
Theorem cleanup_keeps_recent_entries (c : cache) (env : Env) :
  raised _ (cleanup Env time_time write_cache c env) = None ->
  forall k v,
    In (k, v) (portfolio_cache _ (cleanup Env time_time write_cache c env)) <->
    In (k, v) c /\
    exists t, last_accessed v = Some t /\ (time_time env - t < 2592000)%Q.
Proof.
  unfold cleanup, _save_cache.
  destruct (retain (time_time env) c) as [e|kept] eqn:Hret; [discriminate |].
  destruct (write_cache kept env) as [[detail|] env']; intros _ k v; cbn;
    exact (retain_kept _ _ _ Hret k v).
Qed.

(** X14. Cleaning up again later loses no more than one [cleanup] at the
    later time: if the first [cleanup] does not raise and the clock has
    not gone back since, a second [cleanup] leaves the cache that a
    single one, of the original cache at the later time, leaves. At an
    unchanged clock reading the second [cleanup] therefore removes
    nothing. *)
Theorem cleanup_twice_is_cleanup_later (c : cache) (env : Env) :
  raised _ (cleanup Env time_time write_cache c env) = None ->
  (time_time env
   <= time_time (env_after _ (cleanup Env time_time write_cache c env)))%Q ->
  portfolio_cache _
    (cleanup Env time_time write_cache
       (portfolio_cache _ (cleanup Env time_time write_cache c env))
       (env_after _ (cleanup Env time_time write_cache c env)))
  = portfolio_cache _
      (cleanup Env time_time write_cache c
         (env_after _ (cleanup Env time_time write_cache c env))).
Proof.
  unfold cleanup, _save_cache.
  destruct (retain (time_time env) c) as [e|kept] eqn:Hret; [discriminate |].
  destruct (write_cache kept env) as [[detail|] env'] eqn:Hw;
    cbn [raised env_after portfolio_cache]; intros _ Hclock;
    destruct (retain_later _ _ _ _ Hclock Hret) as (kept2 & H2 & H12);
    rewrite H2, H12;
    destruct (write_cache kept2 env') as [[d|] env'']; reflexivity.
Qed.

End CleanupProperties.

Lemma cleanup_keeps_recent_entries_witness :
  let after := PortfolioManager.portfolio_cache _
                 (PortfolioManager.cleanup Q (fun clock => clock)
                    PortfolioManager.disk_full PortfolioManager.two_portfolios
                    2592000%Q) in
  In ("hash_b", PortfolioManager.accessed_at 2592000) after /\
  ~ In ("hash_a", PortfolioManager.accessed_at 0) after.
Proof.
  pose proof (cleanup_keeps_recent_entries Q (fun clock => clock)
                PortfolioManager.disk_full PortfolioManager.two_portfolios
                2592000%Q eq_refl) as Hspec.
  cbv zeta. split.
  - apply Hspec. split; [right; left; reflexivity |].
    exists 2592000%Q. split; reflexivity.
  - intros Hin. apply Hspec in Hin. destruct Hin as (_ & t & Ht & Hlt).
    injection Ht as <-. discriminate Hlt.
Defined.

Lemma cleanup_twice_is_cleanup_later_witness :
  PortfolioManager.portfolio_cache _
    (PortfolioManager.cleanup Q (fun clock => clock) PortfolioManager.disk_full
       (PortfolioManager.portfolio_cache _
          (PortfolioManager.cleanup Q (fun clock => clock) PortfolioManager.disk_full
             PortfolioManager.two_portfolios 2592000%Q))
       2592000%Q)
  = [("hash_b", PortfolioManager.accessed_at 2592000)].
Proof.
  exact (cleanup_twice_is_cleanup_later Q (fun clock => clock)
           PortfolioManager.disk_full PortfolioManager.two_portfolios 2592000%Q
           eq_refl ltac:(discriminate)).
Defined.

(** ** How the two retry budgets multiply *)

Lemma filter_repeat {A} (p : A -> bool) (x : A) (m : nat) :
  filter p (repeat x m) = if p x then repeat x m else [].
Proof.
  induction m as [|m IH]; cbn; [now destruct (p x) |].
  rewrite IH. now destruct (p x).
Qed.

Lemma make_api_request_async_counts
    (rt : Runtime) (self : APIClient) (req : request) (w : World rt)
    (r : result pyval) (w' : World rt) (tr : trace) (p : request -> bool) :
  make_api_request_async rt self req w = (r, w', tr) ->
  (List.length (filter p (requests tr))
   <= if p req then Z.to_nat (max_retries self) else 0)%nat.
Proof.
  intros Hrun. unfold make_api_request_async in Hrun.
  destruct (Z_lt_le_dec (max_retries self) 0) as [Hneg | Hnn].
  - replace (Z.to_nat (max_retries self)) with 0%nat in * by lia.
    injection Hrun as <- <- <-. rewrite requests_nil. cbn. destruct (p req); lia.
  - assert (Hinv : 0 + Z.of_nat (Z.to_nat (max_retries self)) = max_retries self)
      by lia.
    destruct (attempts_lists rt self req _ 0 w r w' tr Hinv Hrun)
      as (Hle & _ & Hreq & _).
    rewrite Hreq, filter_repeat.
    destruct (p req); [now rewrite repeat_length | cbn; lia].
Qed.

(** Case analysis of a run of the loop body [H], keeping of each call of
    the executor how many create and cancel calls it made. *)
Ltac crunch_counts H :=
  repeat (cbn beta iota zeta in H;
    match type of H with
    | context [match make_api_request_async ?r ?s ?req ?w with _ => _ end] =>
        let E := fresh "E" in
        let Hcr := fresh "Hcreate" in
        let Hca := fresh "Hcancel" in
        destruct (make_api_request_async r s req w) as [[[[|?]|?] ?] ?] eqn:E;
        pose proof (make_api_request_async_counts _ _ _ _ _ _ _ is_create E) as Hcr;
        pose proof (make_api_request_async_counts _ _ _ _ _ _ _ is_cancel E) as Hca;
        apply make_api_request_async_quiet in E; destruct E as (_ & _ & ?);
        cbn [is_create is_cancel] in Hcr, Hca
    | context [if py_in ?a ?b then _ else _] => destruct (py_in a b) eqn:?
    | context [if negb ?b then _ else _] => destruct b eqn:?; cbn [negb] in H
    | context [if Z.ltb ?a ?b then _ else _] => destruct (Z.ltb a b) eqn:?
    | context [if Qgtb ?a ?b then _ else _] => destruct (Qgtb a b) eqn:?
    | context [if isinstance_TimeoutError ?r ?e then _ else _] =>
        destruct (isinstance_TimeoutError r e) eqn:?
    | context [match ?f ?a ?w with _ => _ end] =>
        is_var f; destruct (f a w) as [[?|] ?] eqn:?
    | context [match ?x with _ => _ end] => is_var x; destruct x
    end).

Section PollingCalls.

Variable rt : Runtime.
Variable self : APIClient.
Variable thread_id : string.
Variable callback : option (callback_t rt).

Lemma iteration_counts st w r w' tr :
  iteration rt self thread_id callback st w = (r, w', tr) ->
  (List.length (filter is_create (requests tr))
   <= Z.to_nat (max_retries self) * List.length (recreations tr))%nat /\
  (List.length (filter is_cancel (requests tr))
   <= Z.to_nat (max_retries self) * List.length (recreations tr))%nat.
Proof.
  intros H.
  unfold iteration, poll_body, bind, try_except, log, ret, raise, loop_time,
    asyncio_sleep, await_callback in H.
  crunch_counts H.
  all: inversion H; subst; clear H.
  all: observe.
  all: repeat match goal with
         | Hq : recreations _ = [] |- _ => rewrite ?Hq; clear Hq
         end.
  all: cbn [app]; rewrite ?app_nil_r, ?filter_app, ?length_app.
  all: cbn [List.length]; split; lia.
Qed.

Lemma poll_loop_counts fuel :
  forall st w r w' tr,
    poll_loop rt self fuel thread_id callback st w = (r, w', tr) ->
    (List.length (filter is_create (requests tr))
     <= Z.to_nat (max_retries self) * List.length (recreations tr))%nat /\
    (List.length (filter is_cancel (requests tr))
     <= Z.to_nat (max_retries self) * List.length (recreations tr))%nat.
Proof.
  induction fuel as [|fuel IH]; intros st w r w' tr Hrun.
  - injection Hrun as <- <- <-. observe. cbn. lia.
  - rewrite poll_loop_S in Hrun.
    destruct (run_status_check rt w).
    2:{ injection Hrun as <- <- <-. observe. cbn. lia. }
    destruct (iteration rt self thread_id callback st w) as [[c w1] t1] eqn:Hit.
    apply iteration_counts in Hit.
    destruct c as [[st'|v]|e].
    + destruct (poll_loop rt self fuel thread_id callback st' w1) as [[r2 w2] t2] eqn:Hrest.
      injection Hrun as <- <- <-. apply IH in Hrest.
      observe. rewrite !filter_app, !length_app. lia.
    + injection Hrun as <- <- <-. exact Hit.
    + injection Hrun as <- <- <-. exact Hit.
Qed.

End PollingCalls.

(** X15. The two budgets multiply: with [max_retries = N] and
    [max_run_retries = R], neither negative, a session makes at most
    [N * R] create calls and at most [N * R] cancel calls, [N] for each
    recreation. *)
Theorem session_call_budget
    (rt : Runtime) (self : APIClient) (thread_id run_id0 : string)
    (callback : option (callback_t rt)) (fuel : nat) (w : World rt)
    (r : result polling) (w' : World rt) (tr : trace) :
  0 <= max_run_retries self ->
  _check_run_status rt self fuel thread_id run_id0 callback w = (r, w', tr) ->
  (List.length (filter is_create (requests tr))
   <= Z.to_nat (max_retries self) * Z.to_nat (max_run_retries self))%nat /\
  (List.length (filter is_cancel (requests tr))
   <= Z.to_nat (max_retries self) * Z.to_nat (max_run_retries self))%nat.
Proof.
  intros Hmax Hrun. apply check_run_status_trace in Hrun.
  destruct Hrun as (tr0 & Hloop & -> & _ & _ & _).
  pose proof (poll_loop_counts rt self thread_id callback fuel _ _ _ _ _ Hloop)
    as [Hcreate Hcancel].
  apply poll_loop_effects in Hloop. destruct Hloop as [(n & Hn & Hbound) _].
  cbn [retry_count] in Hbound.
  assert (Hlen : (List.length (recreations tr0) <= Z.to_nat (max_run_retries self))%nat).
  { rewrite Hn, length_map, length_seq. lia. }
  split; nia.
Qed.

Lemma session_call_budget_witness :
  let tr := snd (_check_run_status (Sim.runtime true) APIClient_init 5 Sim.thread
                   "run_1" None Sim.stale_timer) in
  (List.length (filter is_create (requests tr)) <= 2 * 2)%nat /\
  (List.length (filter is_cancel (requests tr)) <= 2 * 2)%nat.
Proof.
  refine (session_call_budget (Sim.runtime true) APIClient_init Sim.thread "run_1"
            None 5 Sim.stale_timer _ _ _ _ _).
  - discriminate.
  - vm_compute. reflexivity.
Defined.

(** ** [cleanup] on any cache *)

Section AnyCacheProperties.

Import PortfolioManager.

Variable Value : Type.
Variable Other : Type.
Variable Error : Type.
Variable no_items : Error.
Variable is_recent : Q -> Value -> Error + bool.
Variable Env : Type.
Variable time_time : Env -> Q.
Variable write_held : held Value Other -> Env -> option string * Env.

Lemma retain_any_raises (now : Q) (items : list (string * Value)) (e : Error) :
  retain_any Value Error is_recent now items = inl e ->
  exists pre k v post,
    items = pre ++ (k, v) :: post /\
    is_recent now v = inl e /\
    forall k' v', In (k', v') pre -> exists b, is_recent now v' = inr b.
Proof.
  induction items as [|[k0 v0] items IH]; cbn [retain_any]; [discriminate |].
  destruct (is_recent now v0) as [e0|b0] eqn:H0.
  - intros [= <-]. exists [], k0, v0, items. repeat split; [exact H0 | intros ? ? []].
  - destruct (retain_any Value Error is_recent now items) as [e1|kept]; [| discriminate].
    intros [= <-]. destruct (IH eq_refl) as (pre & k & v & post & -> & Hv & Hpre).
    exists ((k0, v0) :: pre), k, v, post. repeat split; [exact Hv |].
    intros k' v' [[= <- <-] | Hin]; [now exists b0 | now apply Hpre with (k' := k')].
Qed.

Lemma retain_any_returns (now : Q) (items kept : list (string * Value)) :
  retain_any Value Error is_recent now items = inr kept ->
  forall k v, In (k, v) items -> exists b, is_recent now v = inr b.
Proof.
  revert kept. induction items as [|[k0 v0] items IH]; intros kept Hret k v Hin;
    [destruct Hin |].
  cbn [retain_any] in Hret.
  destruct (is_recent now v0) as [e0|b0] eqn:H0; [discriminate |].
  destruct (retain_any Value Error is_recent now items) as [e1|kept0]; [discriminate |].
  destruct Hin as [[= <- <-] | Hin]; [now exists b0 | exact (IH kept0 eq_refl k v Hin)].
Qed.

(** X13. [cleanup] raises exactly when the cache is not a dict or when
    evaluating [current_time - v["last_accessed"] < max_age] raises for
    some value of it, whatever the error; it never raises because the
    cache file could not be written. The error raised is that of the
    first such value in the order of the dict, all values before it
    having been evaluated. When [cleanup] raises, the cache in memory and
    the surroundings are as before: nothing was removed and nothing was
    saved. *)
Theorem cleanup_raises_only_reading_the_cache (h : held Value Other) (env : Env) :
  (raised_any _ _ _ _
     (cleanup_any Value Other Error no_items is_recent Env time_time write_held h env)
   <> None <->
   (exists o, h = NotADict Value Other o) \/
   (exists items k v e,
       h = Dict Value Other items /\ In (k, v) items /\
       is_recent (time_time env) v = inl e)) /\
  (forall e,
      raised_any _ _ _ _
        (cleanup_any Value Other Error no_items is_recent Env time_time write_held h env)
      = Some e ->
      held_after _ _ _ _
        (cleanup_any Value Other Error no_items is_recent Env time_time write_held h env)
      = h /\
      env_after_any _ _ _ _
        (cleanup_any Value Other Error no_items is_recent Env time_time write_held h env)
      = env /\
      save_logs_any _ _ _ _
        (cleanup_any Value Other Error no_items is_recent Env time_time write_held h env)
      = [] /\
      ((exists o, h = NotADict Value Other o /\ e = no_items) \/
       (exists pre k v post,
           h = Dict Value Other (pre ++ (k, v) :: post) /\
           is_recent (time_time env) v = inl e /\
           forall k' v', In (k', v') pre ->
                         exists b, is_recent (time_time env) v' = inr b))).
Proof.
  unfold cleanup_any, _save_cache_any.
  destruct h as [items|o].
  - destruct (retain_any Value Error is_recent (time_time env) items) as [e0|kept] eqn:Hret.
    + destruct (retain_any_raises _ _ _ Hret) as (pre & k & v & post & Hitems & Hv & Hpre).
      cbn. split.
      * split; [| discriminate]. intros _. right. exists items, k, v, e0.
        split; [reflexivity |]. split; [| exact Hv].
        rewrite Hitems. apply in_or_app. right. now left.
      * intros e [= <-]. repeat split. right. exists pre, k, v, post.
        rewrite Hitems. now repeat split.
    + destruct (write_held (Dict Value Other kept) env) as [[detail|] env']; cbn; split;
        try (intros e; discriminate);
        (split; [intros H; now contradiction H |]);
        (intros [(o & [=]) | (items' & k & v & e & [= <-] & Hin & Hv)]);
        destruct (retain_any_returns _ _ _ Hret k v Hin) as [b Hb];
        rewrite Hb in Hv; discriminate Hv.
  - cbn. split.
    + split; [| discriminate]. intros _. left. now exists o.
    + intros e [= <-]. repeat split. left. now exists o.
Qed.

End AnyCacheProperties.

(** On entries the general comprehension is the one above. *)
Lemma retain_is_retain_any (now : Q) (c : PortfolioManager.cache) :
  PortfolioManager.retain now c
  = PortfolioManager.retain_any PortfolioManager.entry InterviewSession.error
      PortfolioManager.is_recent_entry now c.
Proof.
  induction c as [|[k v] c IH]; [reflexivity |].
  cbn [PortfolioManager.retain PortfolioManager.retain_any].
  unfold PortfolioManager.is_recent_entry at 1.
  destruct (PortfolioManager.last_accessed v); [| reflexivity].
  now rewrite IH.
Qed.

Lemma cleanup_raises_only_reading_the_cache_witness :
  PortfolioManager.raised_any _ _ _ _
    (PortfolioManager.cleanup_any PortfolioManager.entry json InterviewSession.error
       (InterviewSession.AttributeError "items") PortfolioManager.is_recent_entry
       Q (fun clock => clock) (fun _ clock => (Some "No space left on device", clock))
       (PortfolioManager.Dict _ _
          [("hash_a", PortfolioManager.accessed_at 0);
           ("hash_c", PortfolioManager.mkEntry None None None)])
       10%Q)
  <> None.
Proof.
  apply (proj1 (cleanup_raises_only_reading_the_cache
                  PortfolioManager.entry json InterviewSession.error
                  (InterviewSession.AttributeError "items")
                  PortfolioManager.is_recent_entry
                  Q (fun clock => clock)
                  (fun _ clock => (Some "No space left on device", clock))
                  (PortfolioManager.Dict _ _
                     [("hash_a", PortfolioManager.accessed_at 0);
                      ("hash_c", PortfolioManager.mkEntry None None None)])
                  10%Q)).
  right.
  exists [("hash_a", PortfolioManager.accessed_at 0);
          ("hash_c", PortfolioManager.mkEntry None None None)],
    "hash_c", (PortfolioManager.mkEntry None None None),
    (InterviewSession.KeyError "last_accessed").
  split; [reflexivity |]. split; [right; left; reflexivity | reflexivity].
Defined.
